(** * Photon propagation model (model.py): a shallow embedding over the reals

    The TensorFlow graph built by [Model] is embedded with tensors of shape
    [(N)] as [list R] and tensors of shape [(N, 3)] as [list V3]; floating
    point numbers are idealised as real numbers.  Every random draw of the
    graph (the uniform samples, the medium's scatter distances) is an
    explicit input of the iteration that consumes it. *)

From Stdlib Require Import Reals Lra Lia Psatz RNsatz.
From stdpp Require Import base decidable list.

Open Scope R_scope.

(** ** Rows of a [(N, 3)] tensor *)

Record V3 : Type := mkV3 { vx : R; vy : R; vz : R }.

Definition vadd (a b : V3) : V3 := mkV3 (vx a + vx b) (vy a + vy b) (vz a + vz b).
Definition vsub (a b : V3) : V3 := mkV3 (vx a - vx b) (vy a - vy b) (vz a - vz b).
Definition vscale (k : R) (a : V3) : V3 := mkV3 (k * vx a) (k * vy a) (k * vz a).
Definition vdiv (a : V3) (k : R) : V3 := mkV3 (vx a / k) (vy a / k) (vz a / k).
Definition vdot (a b : V3) : R := vx a * vx b + vy a * vy b + vz a * vz b.

(** [tf.cross] on one row. *)
Definition cross (a b : V3) : V3 :=
  mkV3 (vy a * vz b - vz a * vy b)
       (vz a * vx b - vx a * vz b)
       (vx a * vy b - vy a * vx b).

(** [tf.norm(., axis=-1)] and [np.linalg.norm] on one row. *)
Definition norm_sq (a : V3) : R := vx a * vx a + vy a * vy a + vz a * vz a.
Definition norm (a : V3) : R := sqrt (norm_sq a).

Definition vzero : V3 := mkV3 0 0 0.

(** ** Decidable comparisons on [R], for boolean tensors *)

#[global] Instance Rlt_decision : RelDecision Rlt := Rlt_dec.
#[global] Instance Rle_decision : RelDecision Rle := Rle_dec.
#[global] Instance Rgt_decision : RelDecision Rgt := Rgt_dec.
#[global] Instance Rge_decision : RelDecision Rge := Rge_dec.
#[global] Instance Req_decision : EqDecision R := Req_dec_T.

#[global] Instance V3_eq_dec : EqDecision V3.
Proof. solve_decision. Defined.

(** ** Elementwise tensor operations *)

(** [tf.where(cond, x, y)] with [cond] of rank 1: selection by rows. *)
Definition tf_where {A : Type} (cond : list bool) (x y : list A) : list A :=
  zip_with (fun (c : bool) (xy : A * A) => if c then xy.1 else xy.2)
           cond (zip x y).

(** [tf.zeros_like] and [tf.zeros([n])]. *)
Definition zeros (n : nat) : list R := replicate n 0.
Definition zeros_like {A : Type} (x : list A) : list R := zeros (length x).

(** [tf.reduce_max]: the maximum of an empty tensor is minus infinity,
    rendered as [None]. *)
Definition reduce_max (x : list R) : option R :=
  match x with
  | [] => None
  | a :: l => Some (foldl Rmax a l)
  end.

(** [tf.less(c, m)] against an extended real [m]. *)
Definition tf_less (c : R) (m : option R) : bool :=
  match m with
  | None => false
  | Some b => bool_decide (c < b)
  end.

(** [tf.tile(x, [k, 1])]: [k] copies of the whole tensor, one after another. *)
Definition tf_tile {A : Type} (x : list A) (k : nat) : list A :=
  concat (replicate k x).

(** [self._uni_pdf.sample(n)]: the first [n] values of the stream of uniform
    draws realised by this call. *)
Definition uni_sample (u : nat -> R) (n : nat) : list R := map u (seq 0 n).

(** [x ** e] for a base in the range of the uniform sampler: [0 ** e] is 0
    for the positive exponent used here. *)
Definition tf_pow (x e : R) : R :=
  if decide (x = 0) then 0 else Rpower x e.

(** [tf.transpose([a, b, c])] of three rank-1 tensors: the [(N, 3)] tensor
    whose rows are made of the three components. *)
Definition tf_transpose3 (a b c : list R) : list V3 :=
  zip_with (fun (x : R) (yz : R * R) => mkV3 x yz.1 yz.2) a (zip b c).

(** ** Quaternions (tfquaternion) *)

Record Quaternion : Type := mkQuaternion { qw : R; qx : R; qy : R; qz : R }.

Definition q_xyz (q : Quaternion) : V3 := mkV3 (qx q) (qy q) (qz q).
Definition q_norm_sq (q : Quaternion) : R :=
  qw q * qw q + qx q * qx q + qy q * qy q + qz q * qz q.
Definition q_normalized (q : Quaternion) : Quaternion :=
  let n := sqrt (q_norm_sq q) in
  mkQuaternion (qw q / n) (qx q / n) (qy q / n) (qz q / n).

(** [tf.transpose([w, x, y, z])] wrapped by [tfq.Quaternion]. *)
Definition tf_transpose4 (w x y z : list R) : list Quaternion :=
  zip_with (fun (a : R) (b : R * (R * R)) => mkQuaternion a b.1 b.2.1 b.2.2)
           w (zip x (zip y z)).

(** Modelled from the spec: [tfq.rotate_vector_by_quaternion] belongs to the
    tfquaternion package, which is not part of the sources; the design notes
    give it as [v' = v + 2w(u x v) + 2(u x (u x v))] for the quaternion
    [(w, u)]. *)
Definition rotate_row (q : Quaternion) (v : V3) : V3 :=
  let t := vscale 2 (cross (q_xyz q) v) in
  vadd (vadd v (vscale (qw q) t)) (cross (q_xyz q) t).

Definition rotate_vector_by_quaternion (q : list Quaternion) (v : list V3)
  : list V3 :=
  zip_with rotate_row q v.

(** ** Settings and collaborators *)

(** The fields of [settings] the model reads. *)
Record Settings : Type := mkSettings {
  BATCH_SIZE : nat;
  CASCADES_PER_STEP : nat;
  CUTOFF_RADIUS : option R
}.

(** Truthiness of [settings.CUTOFF_RADIUS]: [None] and [0] are false. *)
Definition cutoff_enabled (c : option R) : option R :=
  match c with
  | Some x => if decide (x = 0) then None else Some x
  | None => None
  end.

(** [int(b / c)] under true division, for non-negative integers; dividing by
    zero raises. *)
Definition int_div (b c : nat) : option nat :=
  if decide (c = 0%nat) then None else Some (b / c)%nat.

(** The medium.  Both samplers are random: [Rnd] is the randomness one call
    consumes. *)
Record Ice (Rnd : Type) : Type := mkIce {
  tf_sample_scatter : Rnd -> list V3 -> list R;
  tf_sample_absorption : Rnd -> list V3 -> list R
}.
Arguments tf_sample_scatter {Rnd} _ _ _.
Arguments tf_sample_absorption {Rnd} _ _ _.

Record Detector : Type := mkDetector {
  tf_check_for_hits : list V3 -> list R -> list V3 -> list R;
  _l_x : R;
  _l_y : R;
  _l_z : R
}.

(** The random draws of one evaluation of [body]. *)
Record Draws (Rnd : Type) : Type := mkDraws {
  ice_rnd : Rnd;
  scat_u : nat -> R;
  normal_theta_u : nat -> R;
  normal_phi_u : nat -> R
}.
Arguments ice_rnd {Rnd} _.
Arguments scat_u {Rnd} _ _.
Arguments normal_theta_u {Rnd} _ _.
Arguments normal_phi_u {Rnd} _ _.

(** The random draws of the initialization. *)
Record InitDraws (Rnd : Type) : Type := mkInitDraws {
  init_theta_u : nat -> R;
  init_phi_u : nat -> R;
  abs_rnd : Rnd
}.
Arguments init_theta_u {Rnd} _ _.
Arguments init_phi_u {Rnd} _ _.
Arguments abs_rnd {Rnd} _.

(** The loop variables [d_abs, r, v, t, t_layer_0, t_layer_1]. *)
Record LoopVars : Type := mkLoopVars {
  d_abs : list R;
  r : list V3;
  v : list V3;
  t : list R;
  t_layer_0 : list R;
  t_layer_1 : list R
}.

(** [tf.while_loop]: [fuel] bounds the number of evaluations of the guard;
    the result carries the number of iterations that ran. *)
Fixpoint tf_while_loop {S : Type} (cond : S -> bool) (body : nat -> S -> S)
  (fuel k : nat) (s : S) : option (nat * S) :=
  match fuel with
  | O => None
  | Datatypes.S fuel' =>
      if cond s then tf_while_loop cond body fuel' (Datatypes.S k) (body k s)
      else Some (k, s)
  end.

Module Model.
Section Model.

Context {Rnd : Type}.
Variable settings : Settings.
Variable _ice : Ice Rnd.
Variable _detector : Detector.

(** Directions of the sampled vectors, shared by [tf_init_cascades] and
    [tf_sample_normal_vectors]. *)
Definition sampled_directions (theta_u phi_u : nat -> R) (n : nat) : list V3 :=
  let thetas := map (fun u => u * PI) (uni_sample theta_u n) in
  let phis := map (fun u => u * 2 * PI) (uni_sample phi_u n) in
  let sinTs := map sin thetas in
  tf_transpose3 (zip_with Rmult sinTs (map cos phis))
                (zip_with Rmult sinTs (map sin phis))
                (map cos thetas).

Definition tf_init_cascades (r_cascades : list V3) (dr : InitDraws Rnd)
  : option (list V3 * list V3) :=
  k ← int_div (BATCH_SIZE settings) (CASCADES_PER_STEP settings);
  let _r0 := tf_tile r_cascades k in
  let _v0 := sampled_directions (init_theta_u dr) (init_phi_u dr)
                                (BATCH_SIZE settings) in
  Some (_r0, _v0).

(** [tf_sample_normal_vectors] (lines 59-81).  On a row whose cross product
    vanishes the source divides 0 by 0; every statement that depends on such
    a row assumes a non-zero cross product. *)
Definition tf_sample_normal_vectors (dr : Draws Rnd) (v : list V3) : list V3 :=
  let n := zip_with cross
             (sampled_directions (normal_theta_u dr) (normal_phi_u dr)
                                 (length v)) v in
  map (fun n_i => vdiv n_i (norm n_i)) n.

Definition tf_scatter (dr : Draws Rnd) (v : list V3) : list V3 :=
  let cosTs := map (fun u => 2 * tf_pow u (1 / 19) - 1)
                   (uni_sample (scat_u dr) (length v)) in
  let cosT2s := map (fun c => sqrt ((c + 1) / 2)) cosTs in
  let sinT2s := map (fun c => sqrt ((1 - c) / 2)) cosTs in
  let ns := zip_with (fun n_i s => mkV3 (vx n_i * s) (vy n_i * s) (vz n_i * s))
                     (tf_sample_normal_vectors dr v) sinT2s in
  let q := tf_transpose4 cosT2s (map vx ns) (map vy ns) (map vz ns) in
  rotate_vector_by_quaternion q v.

(** The cutoff test of one row: inside iff the distance to the detector
    centre is below [CUTOFF_RADIUS * norm([l_x, l_y, l_z]) / 2]. *)
Definition inside_cutoff (c : R) (p : V3) : bool :=
  bool_decide
    (norm (vsub p (mkV3 (_l_x _detector / 2) (_l_y _detector / 2)
                        (_l_z _detector / 2)))
     < c * norm (mkV3 (_l_x _detector) (_l_y _detector) (_l_z _detector)) / 2).

Definition positive (x : list R) : list bool :=
  map (fun a => bool_decide (a > 0)) x.

(** The value of [d_abs] after line 118. *)
Definition clamp_d_abs (d_abs : list R) : list R :=
  tf_where (positive d_abs) d_abs (zeros_like d_abs).

(** The value of [d] after line 122. *)
Definition step_distance (d_scat d_abs : list R) : list R :=
  tf_where (zip_with (fun a b => bool_decide (a < b)) d_scat d_abs)
           d_scat d_abs.

(** The value of [d_abs] after line 126. *)
Definition hit_update (rel_d_til_hit d d_abs : list R) : list R :=
  tf_where (map (fun h => bool_decide (h < 1)) rel_d_til_hit)
           (zeros_like d) (zip_with Rminus d_abs d).

(** The value of [d_abs] after lines 142-150. *)
Definition cutoff_update (r : list V3) (d_abs : list R) : list R :=
  match cutoff_enabled (CUTOFF_RADIUS settings) with
  | Some c => tf_where (map (inside_cutoff c) r) d_abs (zeros_like d_abs)
  | None => d_abs
  end.

(** What the two collaborators return in one evaluation of [body]: the
    medium's scatter distances (line 115) and the detector's relative
    distances until a hit (line 125). *)
Definition scatter_distances (dr : Draws Rnd) (s : LoopVars) : list R :=
  tf_sample_scatter _ice (ice_rnd dr) (r s).

Definition hit_fractions (dr : Draws Rnd) (s : LoopVars) : list R :=
  tf_check_for_hits _detector (r s)
    (step_distance (scatter_distances dr s) (clamp_d_abs (d_abs s))) (v s).

(** The loop body (lines 113-155).  TensorFlow rejects operands whose
    shapes disagree; here the elementwise operations stop at the shorter
    operand, and the statements below are made lane by lane or for loop
    variables of one common length ([shape_ok]). *)
Definition body (dr : Draws Rnd) (s : LoopVars) : LoopVars :=
  let d_scat := scatter_distances dr s in
  let d_abs1 := clamp_d_abs (d_abs s) in
  let d := step_distance d_scat d_abs1 in
  let rel_d_til_hit := hit_fractions dr s in
  let d_abs2 := hit_update rel_d_til_hit d d_abs1 in
  let r' := zip_with vadd (r s)
              (zip_with vscale (zip_with Rmult d rel_d_til_hit) (v s)) in
  let t_step := zip_with Rmult d rel_d_til_hit in
  let t' := zip_with Rplus (t s) t_step in
  let t_layer_0' :=
    zip_with Rplus (t_layer_0 s)
      (tf_where (map (fun p => bool_decide (vz p < 50)) r') t_step
                (zeros_like (t_layer_0 s))) in
  let t_layer_1' :=
    zip_with Rplus (t_layer_1 s)
      (tf_where (map (fun p => bool_decide (vz p >= 50)) r') t_step
                (zeros_like (t_layer_1 s))) in
  let d_abs3 := cutoff_update r' d_abs2 in
  let v' := tf_where (positive d_abs3) (tf_scatter dr (v s)) (v s) in
  mkLoopVars d_abs3 r' v' t' t_layer_0' t_layer_1'.

(** The loop guard [tf.less(0., tf.reduce_max(d_abs))]. *)
Definition cond (s : LoopVars) : bool := tf_less 0 (reduce_max (d_abs s)).

(** The initial loop variables of [tf.while_loop]. *)
Definition loop_init (dr : InitDraws Rnd) (_r0 _v0 : list V3) : LoopVars :=
  mkLoopVars (tf_sample_absorption _ice (abs_rnd dr) _r0) _r0 _v0
             (zeros (length _r0)) (zeros (length _r0)) (zeros (length _r0)).

(** [tf_propagate]: the loop variables when the loop stops, with the number
    of iterations. *)
Definition tf_propagate (dr : InitDraws Rnd) (draws : nat -> Draws Rnd)
  (_r0 _v0 : list V3) (fuel : nat) : option (nat * LoopVars) :=
  tf_while_loop cond (fun k => body (draws k)) fuel 0 (loop_init dr _r0 _v0).

(** The loop variables after [n] evaluations of [body], the first of them
    being iteration number [k]. *)
Fixpoint iterations (draws : nat -> Draws Rnd) (k n : nat) (s : LoopVars)
  : LoopVars :=
  match n with
  | O => s
  | S n' => iterations draws (S k) n' (body (draws k) s)
  end.

(** [Model.__init__]: the cascades are initialized, then propagated. *)
Definition run (r_cascades : list V3) (dr : InitDraws Rnd)
  (draws : nat -> Draws Rnd) (fuel : nat) : option (nat * LoopVars) :=
  '(_r0, _v0) ← tf_init_cascades r_cascades dr;
  tf_propagate dr draws _r0 _v0 fuel.

End Model.
End Model.

(** ** Row-wise views, used to state what one lane of the batch computes *)

(** One sampled direction, from its two uniform draws. *)
Definition direction_row (theta_u phi_u : R) : V3 :=
  mkV3 (sin (theta_u * PI) * cos (phi_u * 2 * PI))
       (sin (theta_u * PI) * sin (phi_u * 2 * PI))
       (cos (theta_u * PI)).

(** One row of [tf_sample_normal_vectors]. *)
Definition normal_row (theta_u phi_u : R) (dir : V3) : V3 :=
  let n := cross (direction_row theta_u phi_u) dir in
  vdiv n (norm n).

(** The quaternion [tf_scatter] builds for one row. *)
Definition scatter_quaternion (u theta_u phi_u : R) (dir : V3) : Quaternion :=
  let cosT := 2 * tf_pow u (1 / 19) - 1 in
  let n := normal_row theta_u phi_u dir in
  let s := sqrt ((1 - cosT) / 2) in
  mkQuaternion (sqrt ((cosT + 1) / 2)) (vx n * s) (vy n * s) (vz n * s).

(** One row of [tf_scatter]. *)
Definition scatter_row (u theta_u phi_u : R) (dir : V3) : V3 :=
  rotate_row (scatter_quaternion u theta_u phi_u dir) dir.

(** ** One photon of the batch *)

Record Photon : Type := mkPhoton {
  ph_d_abs : R;
  ph_r : V3;
  ph_v : V3;
  ph_t : R;
  ph_t_layer_0 : R;
  ph_t_layer_1 : R
}.

(** Lane [i] of the loop variables. *)
Definition lane (s : LoopVars) (i : nat) : option Photon :=
  a ← d_abs s !! i;
  p ← r s !! i;
  dir ← v s !! i;
  tm ← t s !! i;
  t0 ← t_layer_0 s !! i;
  t1 ← t_layer_1 s !! i;
  Some (mkPhoton a p dir tm t0 t1).

(** All six loop variables hold [n] photons. *)
Definition shape_ok (n : nat) (s : LoopVars) : Prop :=
  length (d_abs s) = n /\ length (r s) = n /\ length (v s) = n /\
  length (t s) = n /\ length (t_layer_0 s) = n /\ length (t_layer_1 s) = n.

(** The two layer times add up to the elapsed time on every lane. *)
Definition time_partitioned (s : LoopVars) : Prop :=
  forall (i : nat) (ph : Photon),
    lane s i = Some ph -> ph_t_layer_0 ph + ph_t_layer_1 ph = ph_t ph.

(** One row of the cutoff update of lines 142-150. *)
Definition cutoff_row (settings : Settings) (_detector : Detector) (p : V3)
  (a : R) : R :=
  match cutoff_enabled (CUTOFF_RADIUS settings) with
  | Some c => if Model.inside_cutoff _detector c p then a else 0
  | None => a
  end.

(** ** Contracts of the collaborators *)

(** The medium returns one strictly positive scatter distance per photon. *)
Definition ice_contract {Rnd : Type} (ice : Ice Rnd) : Prop :=
  forall (rnd : Rnd) (rs : list V3),
    length (tf_sample_scatter ice rnd rs) = length rs /\
    Forall (fun x => 0 < x) (tf_sample_scatter ice rnd rs).

(** The medium returns one absorption distance per photon. *)
Definition absorption_shape {Rnd : Type} (ice : Ice Rnd) : Prop :=
  forall (rnd : Rnd) (rs : list V3),
    length (tf_sample_absorption ice rnd rs) = length rs.

(** The detector returns one fraction in [[0, 1]] per photon. *)
Definition detector_contract (det : Detector) : Prop :=
  forall (rs : list V3) (ds : list R) (vs : list V3),
    length ds = length rs -> length vs = length rs ->
    length (tf_check_for_hits det rs ds vs) = length rs /\
    Forall (fun h => 0 <= h <= 1) (tf_check_for_hits det rs ds vs).

(** ** A deterministic medium and detector *)

(** A medium whose scatter distance is always [scat] and whose absorption
    distance is always [absorb]. *)
Definition constant_ice (scat absorb : R) : Ice unit :=
  mkIce unit (fun _ rs => replicate (length rs) scat)
             (fun _ rs => replicate (length rs) absorb).

(** A detector of extents [lx, ly, lz] that always returns the relative
    distance [h]. *)
Definition constant_detector (h lx ly lz : R) : Detector :=
  mkDetector (fun rs _ _ => replicate (length rs) h) lx ly lz.

(** Draws that are the same on every lane. *)
Definition constant_draws (u theta_u phi_u : R) : Draws unit :=
  mkDraws unit tt (fun _ => u) (fun _ => theta_u) (fun _ => phi_u).

Definition constant_init_draws (theta_u phi_u : R) : InitDraws unit :=
  mkInitDraws unit (fun _ => theta_u) (fun _ => phi_u) tt.

(** ** Concrete inputs *)

(** Four photons from two cascades, with and without a cutoff radius. *)
Definition settings_no_cutoff : Settings := mkSettings 4 2 None.
Definition settings_cutoff : Settings := mkSettings 4 2 (Some 1).

Definition two_origins : list V3 := [mkV3 0 0 0; mkV3 0 0 60].

(** One active photon at the origin, flying along the z-axis with 5 units
    left until absorption, and the same photon once frozen. *)
Definition one_photon : LoopVars :=
  mkLoopVars [5] [mkV3 0 0 0] [mkV3 0 0 1] [0] [0] [0].

Definition one_frozen_photon : LoopVars :=
  mkLoopVars [0] [mkV3 0 0 0] [mkV3 0 0 1] [3] [3] [0].

(** A batch of two photons whose second lane holds the photon of
    [one_photon], and draws that differ from lane to lane. *)
Definition two_photons : LoopVars :=
  mkLoopVars [7; 5] [mkV3 1 2 3; mkV3 0 0 0] [mkV3 1 0 0; mkV3 0 0 1]
             [2; 0] [1; 0] [1; 0].

Definition lanewise_draws : Draws unit :=
  mkDraws unit tt
    (fun lane_i => match lane_i with 1%nat => 1 | _ => 1 / 3 end)
    (fun lane_i => match lane_i with 1%nat => 1 / 2 | _ => 1 / 4 end)
    (fun lane_i => match lane_i with 1%nat => 0 | _ => 1 / 5 end).

(** One photon at the centre of a detector of extents [(0, 0, 200)], with 20
    units left until absorption. *)
Definition centre_photon : LoopVars :=
  mkLoopVars [20] [mkV3 0 0 100] [mkV3 0 0 1] [0] [0] [0].

(** ** Lookup lemmas for the tensor operations *)

Section Tensor.

Lemma lookup_tf_where {A : Type} (c : list bool) (x y : list A) (i : nat)
    (b : bool) (a a' : A) :
  c !! i = Some b -> x !! i = Some a -> y !! i = Some a' ->
  tf_where c x y !! i = Some (if b then a else a').
Proof.
  intros Hc Hx Hy. unfold tf_where.
  apply lookup_zip_with_Some. exists b, (a, a'). split; [done|].
  split; [done|]. apply lookup_zip_with_Some. by exists a, a'.
Qed.

Lemma lookup_zip_with_2 {A B C : Type} (f : A -> B -> C) (x : list A)
    (y : list B) (i : nat) (a : A) (b : B) :
  x !! i = Some a -> y !! i = Some b -> zip_with f x y !! i = Some (f a b).
Proof.
  intros Hx Hy. apply lookup_zip_with_Some. by exists a, b.
Qed.

Lemma lookup_zeros (n i : nat) : (i < n)%nat -> zeros n !! i = Some 0.
Proof. intros Hi. unfold zeros. by apply lookup_replicate_2. Qed.

Lemma lookup_zeros_like {A : Type} (x : list A) (i : nat) (a : A) :
  x !! i = Some a -> zeros_like x !! i = Some 0.
Proof.
  intros Hx. apply lookup_zeros. by apply lookup_lt_Some in Hx.
Qed.

Lemma lookup_zeros_inv (n i : nat) (z : R) : zeros n !! i = Some z -> z = 0.
Proof. unfold zeros. intros H. by apply lookup_replicate in H as [-> _]. Qed.

Lemma lookup_uni_sample (u : nat -> R) (n i : nat) :
  (i < n)%nat -> uni_sample u n !! i = Some (u i).
Proof.
  intros Hi. unfold uni_sample. rewrite list_lookup_fmap.
  by rewrite lookup_seq_lt.
Qed.

Lemma lookup_tf_transpose3 (a b c : list R) (i : nat) (x y z : R) :
  a !! i = Some x -> b !! i = Some y -> c !! i = Some z ->
  tf_transpose3 a b c !! i = Some (mkV3 x y z).
Proof.
  intros Ha Hb Hc. unfold tf_transpose3.
  apply lookup_zip_with_Some. exists x, (y, z). split; [done|].
  split; [done|]. by apply lookup_zip_with_2.
Qed.

Lemma lookup_tf_transpose4 (w x y z : list R) (i : nat) (a b c d : R) :
  w !! i = Some a -> x !! i = Some b -> y !! i = Some c -> z !! i = Some d ->
  tf_transpose4 w x y z !! i = Some (mkQuaternion a b c d).
Proof.
  intros Hw Hx Hy Hz. unfold tf_transpose4.
  apply lookup_zip_with_Some. exists a, (b, (c, d)). split; [done|].
  split; [done|]. apply lookup_zip_with_2; [done|].
  by apply lookup_zip_with_2.
Qed.

Lemma lookup_map {A B : Type} (f : A -> B) (x : list A) (i : nat) (a : A) :
  x !! i = Some a -> map f x !! i = Some (f a).
Proof. intros Hx. change (map f x) with (f <$> x). by rewrite list_lookup_fmap, Hx. Qed.

End Tensor.

(** ** One lane of one iteration *)

Section Lane.

Context {Rnd : Type}.
Variable settings : Settings.
Variable _ice : Ice Rnd.
Variable _detector : Detector.

Local Abbreviation body := (Model.body settings _ice _detector).
Local Abbreviation scatter_distances := (Model.scatter_distances _ice).
Local Abbreviation hit_fractions := (Model.hit_fractions _ice _detector).
Local Abbreviation cutoff_update := (Model.cutoff_update settings _detector).
Local Abbreviation inside_cutoff := (Model.inside_cutoff _detector).

Lemma lookup_sampled_directions (theta_u phi_u : nat -> R) (n i : nat) :
  (i < n)%nat ->
  Model.sampled_directions theta_u phi_u n !! i
  = Some (direction_row (theta_u i) (phi_u i)).
Proof.
  intros Hi. unfold Model.sampled_directions, direction_row.
  pose proof (lookup_uni_sample theta_u n i Hi) as Ht.
  pose proof (lookup_uni_sample phi_u n i Hi) as Hp.
  apply (lookup_map (fun u => u * PI)) in Ht.
  apply (lookup_map (fun u => u * 2 * PI)) in Hp.
  pose proof (lookup_map sin _ _ _ Ht) as Hsin.
  apply lookup_tf_transpose3.
  - apply lookup_zip_with_2; [done|]. by apply (lookup_map cos).
  - apply lookup_zip_with_2; [done|]. by apply (lookup_map sin).
  - by apply (lookup_map cos).
Qed.

Lemma lookup_tf_sample_normal_vectors (dr : Draws Rnd) (vs : list V3)
    (i : nat) (dir : V3) :
  vs !! i = Some dir ->
  Model.tf_sample_normal_vectors dr vs !! i
  = Some (normal_row (normal_theta_u dr i) (normal_phi_u dr i) dir).
Proof.
  intros Hv. unfold Model.tf_sample_normal_vectors, normal_row.
  apply (lookup_map (fun n_i => vdiv n_i (norm n_i))).
  apply lookup_zip_with_2; [|done].
  apply lookup_sampled_directions. by apply lookup_lt_Some in Hv.
Qed.

Lemma lookup_tf_scatter (dr : Draws Rnd) (vs : list V3) (i : nat) (dir : V3) :
  vs !! i = Some dir ->
  Model.tf_scatter dr vs !! i
  = Some (scatter_row (scat_u dr i) (normal_theta_u dr i)
                      (normal_phi_u dr i) dir).
Proof.
  intros Hv. unfold Model.tf_scatter, scatter_row, scatter_quaternion.
  unfold rotate_vector_by_quaternion.
  apply lookup_zip_with_2; [|done].
  assert (Hu : uni_sample (scat_u dr) (length vs) !! i = Some (scat_u dr i)).
  { apply lookup_uni_sample. by apply lookup_lt_Some in Hv. }
  pose proof (lookup_tf_sample_normal_vectors dr vs i dir Hv) as Hn.
  set (cosT := 2 * tf_pow (scat_u dr i) (1 / 19) - 1).
  assert (Hc : map (fun u => 2 * tf_pow u (1 / 19) - 1)
                 (uni_sample (scat_u dr) (length vs)) !! i = Some cosT).
  { by apply (lookup_map (fun u => 2 * tf_pow u (1 / 19) - 1)). }
  set (n := normal_row (normal_theta_u dr i) (normal_phi_u dr i) dir) in *.
  set (s := sqrt ((1 - cosT) / 2)).
  assert (Hns : zip_with
             (fun n_i s0 => mkV3 (vx n_i * s0) (vy n_i * s0) (vz n_i * s0))
             (Model.tf_sample_normal_vectors dr vs)
             (map (fun c => sqrt ((1 - c) / 2))
                (map (fun u => 2 * tf_pow u (1 / 19) - 1)
                   (uni_sample (scat_u dr) (length vs)))) !! i
           = Some (mkV3 (vx n * s) (vy n * s) (vz n * s))).
  { apply (lookup_zip_with_2
             (fun n_i s0 => mkV3 (vx n_i * s0) (vy n_i * s0) (vz n_i * s0))
             _ _ i n s); [done|].
    by apply (lookup_map (fun c => sqrt ((1 - c) / 2))). }
  apply lookup_tf_transpose4.
  - by apply (lookup_map (fun c => sqrt ((c + 1) / 2))).
  - by apply (lookup_map vx) in Hns.
  - by apply (lookup_map vy) in Hns.
  - by apply (lookup_map vz) in Hns.
Qed.

Lemma lookup_clamp_d_abs (da : list R) (i : nat) (a : R) :
  da !! i = Some a -> Model.clamp_d_abs da !! i = Some (Rmax a 0).
Proof.
  intros Ha. unfold Model.clamp_d_abs, Model.positive.
  rewrite (lookup_tf_where _ _ _ i (bool_decide (a > 0)) a 0).
  - f_equal. unfold Rmax. case_bool_decide; destruct (Rle_dec a 0); lra.
  - by apply (lookup_map (fun x => bool_decide (x > 0))).
  - done.
  - by eapply lookup_zeros_like.
Qed.

Lemma lookup_step_distance (d_scat da : list R) (i : nat) (ds a : R) :
  d_scat !! i = Some ds -> da !! i = Some a ->
  Model.step_distance d_scat da !! i = Some (Rmin ds a).
Proof.
  intros Hs Ha. unfold Model.step_distance.
  rewrite (lookup_tf_where _ _ _ i (bool_decide (ds < a)) ds a).
  - f_equal. unfold Rmin. case_bool_decide; destruct (Rle_dec ds a); lra.
  - by apply (lookup_zip_with_2 (fun x y => bool_decide (x < y)) _ _ i ds a).
  - done.
  - done.
Qed.

Lemma lookup_hit_update (rel d da : list R) (i : nat) (h x a : R) :
  rel !! i = Some h -> d !! i = Some x -> da !! i = Some a ->
  Model.hit_update rel d da !! i
  = Some (if bool_decide (h < 1) then 0 else a - x).
Proof.
  intros Hh Hd Ha. unfold Model.hit_update.
  apply lookup_tf_where.
  - by apply (lookup_map (fun h => bool_decide (h < 1))).
  - by eapply lookup_zeros_like.
  - by apply lookup_zip_with_2.
Qed.

Lemma lookup_cutoff_update (rs : list V3) (da : list R) (i : nat) (p : V3)
    (a : R) :
  rs !! i = Some p -> da !! i = Some a ->
  cutoff_update rs da !! i = Some (cutoff_row settings _detector p a).
Proof.
  intros Hr Ha. unfold Model.cutoff_update, cutoff_row.
  destruct (cutoff_enabled (CUTOFF_RADIUS settings)) as [c|]; [|done].
  apply lookup_tf_where.
  - by apply (lookup_map (inside_cutoff c)).
  - done.
  - by eapply lookup_zeros_like.
Qed.

(** *** The six outputs of [body] on one lane *)

Section Outputs.

Variables (dr : Draws Rnd) (s : LoopVars) (i : nat).
Variables (a ds h : R) (p dir : V3).
Hypothesis Ha : d_abs s !! i = Some a.
Hypothesis Hds : scatter_distances dr s !! i = Some ds.
Hypothesis Hh : hit_fractions dr s !! i = Some h.

Let a1 : R := Rmax a 0.
Let d : R := Rmin ds a1.

Lemma lookup_body_step :
  zip_with Rmult
    (Model.step_distance (scatter_distances dr s) (Model.clamp_d_abs (d_abs s)))
    (hit_fractions dr s) !! i = Some (d * h).
Proof.
  apply lookup_zip_with_2; [|done].
  apply lookup_step_distance; [done|]. by apply lookup_clamp_d_abs.
Qed.

Lemma lookup_body_r :
  r s !! i = Some p -> v s !! i = Some dir ->
  r (body dr s) !! i = Some (vadd p (vscale (d * h) dir)).
Proof.
  intros Hr Hv. unfold Model.body; simpl.
  apply lookup_zip_with_2; [done|].
  apply lookup_zip_with_2; [|done]. apply lookup_body_step.
Qed.

Lemma lookup_body_d_abs :
  r s !! i = Some p -> v s !! i = Some dir ->
  d_abs (body dr s) !! i
  = Some (cutoff_row settings _detector (vadd p (vscale (d * h) dir))
                     (if bool_decide (h < 1) then 0 else a1 - d)).
Proof.
  intros Hr Hv. unfold Model.body; simpl.
  apply lookup_cutoff_update.
  - by apply lookup_body_r.
  - apply lookup_hit_update; [done| |by apply lookup_clamp_d_abs].
    apply lookup_step_distance; [done|]. by apply lookup_clamp_d_abs.
Qed.

Lemma lookup_body_v :
  r s !! i = Some p -> v s !! i = Some dir ->
  v (body dr s) !! i
  = Some (if bool_decide
               (cutoff_row settings _detector
                  (vadd p (vscale (d * h) dir))
                           (if bool_decide (h < 1) then 0 else a1 - d) > 0)
          then scatter_row (scat_u dr i) (normal_theta_u dr i)
                           (normal_phi_u dr i) dir
          else dir).
Proof.
  intros Hr Hv. pose proof (lookup_body_d_abs Hr Hv) as Hd.
  unfold Model.body in *; simpl in *.
  apply lookup_tf_where; [|by apply lookup_tf_scatter|done].
  unfold Model.positive.
  by apply (lookup_map (fun x => bool_decide (x > 0))) in Hd.
Qed.

Lemma lookup_body_t (tm : R) :
  t s !! i = Some tm -> t (body dr s) !! i = Some (tm + d * h).
Proof.
  intros Ht. unfold Model.body; simpl.
  apply lookup_zip_with_2; [done|]. apply lookup_body_step.
Qed.

Lemma lookup_body_t_layer_0 (t0 : R) :
  r s !! i = Some p -> v s !! i = Some dir -> t_layer_0 s !! i = Some t0 ->
  t_layer_0 (body dr s) !! i
  = Some (t0 + (if bool_decide (vz (vadd p (vscale (d * h) dir)) < 50)
                then d * h else 0)).
Proof.
  intros Hr Hv Ht. pose proof (lookup_body_r Hr Hv) as Hr'.
  unfold Model.body in *; simpl in *.
  apply lookup_zip_with_2; [done|].
  apply lookup_tf_where.
  - by apply (lookup_map (fun q => bool_decide (vz q < 50))) in Hr'.
  - apply lookup_body_step.
  - by eapply lookup_zeros_like.
Qed.

Lemma lookup_body_t_layer_1 (t1 : R) :
  r s !! i = Some p -> v s !! i = Some dir -> t_layer_1 s !! i = Some t1 ->
  t_layer_1 (body dr s) !! i
  = Some (t1 + (if bool_decide (vz (vadd p (vscale (d * h) dir)) >= 50)
                then d * h else 0)).
Proof.
  intros Hr Hv Ht. pose proof (lookup_body_r Hr Hv) as Hr'.
  unfold Model.body in *; simpl in *.
  apply lookup_zip_with_2; [done|].
  apply lookup_tf_where.
  - by apply (lookup_map (fun q => bool_decide (vz q >= 50))) in Hr'.
  - apply lookup_body_step.
  - by eapply lookup_zeros_like.
Qed.

End Outputs.

End Lane.

(** ** One iteration of the propagation loop *)

Section Iteration.

Context {Rnd : Type}.
Variable settings : Settings.
Variable _ice : Ice Rnd.
Variable _detector : Detector.

Local Abbreviation body := (Model.body settings _ice _detector).
Local Abbreviation scatter_distances := (Model.scatter_distances _ice).
Local Abbreviation hit_fractions := (Model.hit_fractions _ice _detector).

Lemma vadd_vscale_0 (p dir : V3) (k : R) :
  k = 0 -> vadd p (vscale k dir) = p.
Proof.
  intros ->. destruct p as [x y z]. unfold vadd, vscale; simpl.
  f_equal; ring.
Qed.

Lemma cutoff_row_0 (p : V3) : cutoff_row settings _detector p 0 = 0.
Proof.
  unfold cutoff_row. destruct (cutoff_enabled _); [|done].
  by destruct (Model.inside_cutoff _ _ _).
Qed.

Lemma cutoff_row_cases (p : V3) (a : R) :
  cutoff_row settings _detector p a = a \/
  cutoff_row settings _detector p a = 0.
Proof.
  unfold cutoff_row. destruct (cutoff_enabled _); [|by left].
  destruct (Model.inside_cutoff _ _ _); [by left|by right].
Qed.

(** C1: in one evaluation of [body], on every lane, with [a' = max(a, 0)]
    the clamped absorption distance and [d = min(d_scat, a')] the step
    distance, line 126 sets [d_abs] to [0] when the detector's fraction [h]
    is below 1 and to [a' - d] otherwise, and the position advances by
    [d * h * direction].  Without a cutoff radius that value of [d_abs] is
    the one [body] returns; with one, the cutoff update is applied to it. *)
Theorem body_transition (dr : Draws Rnd) (s : LoopVars) (i : nat)
    (a ds h : R) (p dir : V3) :
  d_abs s !! i = Some a ->
  r s !! i = Some p ->
  v s !! i = Some dir ->
  scatter_distances dr s !! i = Some ds ->
  hit_fractions dr s !! i = Some h ->
  let a' := Rmax a 0 in
  let d := Rmin ds a' in
  let d_abs1 := Model.clamp_d_abs (d_abs s) in
  let ds_all := Model.step_distance (scatter_distances dr s) d_abs1 in
  d_abs1 !! i = Some a' /\
  ds_all !! i = Some d /\
  Model.hit_update (hit_fractions dr s) ds_all d_abs1 !! i
    = Some (if bool_decide (h < 1) then 0 else a' - d) /\
  r (body dr s) !! i = Some (vadd p (vscale (d * h) dir)) /\
  d_abs (body dr s) !! i
    = Some (cutoff_row settings _detector (vadd p (vscale (d * h) dir))
              (if bool_decide (h < 1) then 0 else a' - d)) /\
  (cutoff_enabled (CUTOFF_RADIUS settings) = None ->
   d_abs (body dr s) !! i = Some (if bool_decide (h < 1) then 0 else a' - d)).
Proof.
  intros Ha Hr Hv Hds Hh a' d d_abs1 ds_all.
  assert (H1 : d_abs1 !! i = Some a') by by apply lookup_clamp_d_abs.
  assert (H2 : ds_all !! i = Some d) by by apply lookup_step_distance.
  pose proof (lookup_body_d_abs settings _ice _detector dr s i a ds h p dir
                Ha Hds Hh Hr Hv) as Hd.
  repeat split; try done.
  - by apply lookup_hit_update.
  - by eapply lookup_body_r.
  - intros Hc. rewrite Hd. unfold cutoff_row. by rewrite Hc.
Qed.

(** A photon with [d_abs = 0] is left as it is by one evaluation of [body]. *)
Lemma frozen_step (dr : Draws Rnd) (s : LoopVars) (i : nat) (ds h : R)
    (ph : Photon) :
  lane s i = Some ph ->
  ph_d_abs ph = 0 ->
  scatter_distances dr s !! i = Some ds -> 0 < ds ->
  hit_fractions dr s !! i = Some h ->
  lane (body dr s) i = Some ph.
Proof.
  intros Hl Hz Hds Hpos Hh. unfold lane in Hl.
  destruct (d_abs s !! i) as [a|] eqn:Ha; [|done].
  destruct (r s !! i) as [p|] eqn:Hr; [|done].
  destruct (v s !! i) as [dir|] eqn:Hv; [|done].
  destruct (t s !! i) as [tm|] eqn:Ht; [|done].
  destruct (t_layer_0 s !! i) as [t0|] eqn:Ht0; [|done].
  destruct (t_layer_1 s !! i) as [t1|] eqn:Ht1; [|done].
  simpl in Hl. injection Hl as <-. simpl in Hz. subst a.
  assert (Hd : Rmin ds (Rmax 0 0) = 0).
  { unfold Rmax, Rmin. destruct (Rle_dec 0 0); destruct (Rle_dec ds 0); lra. }
  assert (Hk : Rmin ds (Rmax 0 0) * h = 0) by (rewrite Hd; ring).
  assert (Hc : cutoff_row settings _detector
                 (vadd p (vscale (Rmin ds (Rmax 0 0) * h) dir))
                 (if bool_decide (h < 1) then 0
                  else Rmax 0 0 - Rmin ds (Rmax 0 0)) = 0).
  { replace (if bool_decide (h < 1) then 0 else Rmax 0 0 - Rmin ds (Rmax 0 0))
      with 0; [apply cutoff_row_0|].
    case_bool_decide; [done|]. rewrite Hd. unfold Rmax.
    destruct (Rle_dec 0 0); lra. }
  unfold lane.
  rewrite (lookup_body_d_abs settings _ice _detector dr s i 0 ds h p dir
             Ha Hds Hh Hr Hv).
  rewrite (lookup_body_r settings _ice _detector dr s i 0 ds h p dir
             Ha Hds Hh Hr Hv).
  rewrite (lookup_body_v settings _ice _detector dr s i 0 ds h p dir
             Ha Hds Hh Hr Hv).
  rewrite (lookup_body_t settings _ice _detector dr s i 0 ds h
             Ha Hds Hh tm Ht).
  rewrite (lookup_body_t_layer_0 settings _ice _detector dr s i 0 ds h p dir
             Ha Hds Hh t0 Hr Hv Ht0).
  rewrite (lookup_body_t_layer_1 settings _ice _detector dr s i 0 ds h p dir
             Ha Hds Hh t1 Hr Hv Ht1).
  simpl. rewrite Hc, Hk, (vadd_vscale_0 p dir 0 eq_refl).
  rewrite bool_decide_eq_false_2 by lra.
  clear Hc. f_equal. f_equal; try lra; case_bool_decide; lra.
Qed.

(** C3: on every lane whose [d_abs] is non-negative at loop entry and whose
    sampled scatter distance is positive, the [d_abs] that one evaluation of
    [body] returns is non-negative and at most the value at entry, whatever
    the detector's fraction is. *)
Theorem d_abs_monotone (dr : Draws Rnd) (s : LoopVars) (i : nat)
    (a ds h : R) (p dir : V3) :
  d_abs s !! i = Some a ->
  r s !! i = Some p ->
  v s !! i = Some dir ->
  scatter_distances dr s !! i = Some ds ->
  hit_fractions dr s !! i = Some h ->
  0 <= a ->
  0 < ds ->
  exists a_out : R,
    d_abs (body dr s) !! i = Some a_out /\ 0 <= a_out <= a.
Proof.
  intros Ha Hr Hv Hds Hh Hge Hpos.
  eexists. split.
  - by eapply lookup_body_d_abs.
  - set (x := if bool_decide (h < 1) then 0
              else Rmax a 0 - Rmin ds (Rmax a 0)).
    assert (Hx : 0 <= x <= a).
    { unfold x, Rmax, Rmin. case_bool_decide; [lra|].
      destruct (Rle_dec a 0); destruct (Rle_dec ds _); lra. }
    destruct (cutoff_row_cases (vadd p (vscale (Rmin ds (Rmax a 0) * h) dir)) x)
      as [-> | ->]; lra.
Qed.

(** C7: with a cutoff radius [c] configured, a photon whose position after
    the step is farther than [c * norm(l_x, l_y, l_z) / 2] from the centre
    [(l_x/2, l_y/2, l_z/2)] leaves the iteration with [d_abs = 0] and with
    its direction not scattered, and a photon strictly inside keeps the
    [d_abs] of line 126; the test reads the updated position, and the
    position and the times returned are those of the step. *)
Theorem cutoff_freezes (dr : Draws Rnd) (s : LoopVars) (i : nat) (c : R)
    (a ds h tm : R) (p dir : V3) :
  cutoff_enabled (CUTOFF_RADIUS settings) = Some c ->
  d_abs s !! i = Some a ->
  r s !! i = Some p ->
  v s !! i = Some dir ->
  t s !! i = Some tm ->
  scatter_distances dr s !! i = Some ds ->
  hit_fractions dr s !! i = Some h ->
  let a' := Rmax a 0 in
  let d := Rmin ds a' in
  let p' := vadd p (vscale (d * h) dir) in
  let centre := mkV3 (_l_x _detector / 2) (_l_y _detector / 2)
                     (_l_z _detector / 2) in
  let radius := c * (norm (mkV3 (_l_x _detector) (_l_y _detector)
                                (_l_z _detector)) / 2) in
  r (body dr s) !! i = Some p' /\
  t (body dr s) !! i = Some (tm + d * h) /\
  (norm (vsub p' centre) > radius ->
   d_abs (body dr s) !! i = Some 0 /\ v (body dr s) !! i = Some dir) /\
  (norm (vsub p' centre) < radius ->
   d_abs (body dr s) !! i = Some (if bool_decide (h < 1) then 0 else a' - d)).
Proof.
  intros Hc Ha Hr Hv Ht Hds Hh a' d p' centre radius.
  pose proof (lookup_body_d_abs settings _ice _detector dr s i a ds h p dir
                Ha Hds Hh Hr Hv) as Hd.
  pose proof (lookup_body_v settings _ice _detector dr s i a ds h p dir
                Ha Hds Hh Hr Hv) as Hv'.
  fold a' d p' in Hd, Hv'.
  assert (Hrow : forall x, cutoff_row settings _detector p' x
                 = if bool_decide (norm (vsub p' centre) < radius)
                   then x else 0).
  { intros x. unfold cutoff_row. rewrite Hc.
    unfold Model.inside_cutoff. fold centre.
    replace (c * norm (mkV3 (_l_x _detector) (_l_y _detector)
                            (_l_z _detector)) / 2)
      with radius by (unfold radius; lra).
    done. }
  rewrite Hrow in Hd, Hv'.
  split; [by eapply lookup_body_r|].
  split; [by eapply lookup_body_t|].
  split.
  - intros Hfar.
    rewrite (bool_decide_eq_false_2 (norm (vsub p' centre) < radius))
      in Hd, Hv' by lra.
    rewrite (bool_decide_eq_false_2 (0 > 0)) in Hv' by lra. done.
  - intros Hin. by rewrite bool_decide_eq_true_2 in Hd by lra.
Qed.

(** C8: the time increment [d * h] of an iteration goes to [t_layer_0] when
    the z-coordinate of the updated position is below 50 and to [t_layer_1]
    when it is at least 50; the other layer time is left as it was.  Only the
    updated position [p + d * h * direction] enters the test. *)
Theorem layer_attribution (dr : Draws Rnd) (s : LoopVars) (i : nat)
    (a ds h t0 t1 : R) (p dir : V3) :
  d_abs s !! i = Some a ->
  r s !! i = Some p ->
  v s !! i = Some dir ->
  t_layer_0 s !! i = Some t0 ->
  t_layer_1 s !! i = Some t1 ->
  scatter_distances dr s !! i = Some ds ->
  hit_fractions dr s !! i = Some h ->
  let d := Rmin ds (Rmax a 0) in
  let p' := vadd p (vscale (d * h) dir) in
  r (body dr s) !! i = Some p' /\
  (vz p' < 50 ->
   t_layer_0 (body dr s) !! i = Some (t0 + d * h) /\
   t_layer_1 (body dr s) !! i = Some t1) /\
  (vz p' >= 50 ->
   t_layer_0 (body dr s) !! i = Some t0 /\
   t_layer_1 (body dr s) !! i = Some (t1 + d * h)).
Proof.
  intros Ha Hr Hv Ht0 Ht1 Hds Hh d p'.
  pose proof (lookup_body_t_layer_0 settings _ice _detector dr s i a ds h p
                dir Ha Hds Hh t0 Hr Hv Ht0) as H0.
  pose proof (lookup_body_t_layer_1 settings _ice _detector dr s i a ds h p
                dir Ha Hds Hh t1 Hr Hv Ht1) as H1.
  fold d p' in H0, H1.
  split; [by eapply lookup_body_r|]. split.
  - intros Hz.
    rewrite bool_decide_eq_true_2 in H0 by done.
    rewrite bool_decide_eq_false_2 in H1 by lra.
    split; [done|]. rewrite H1. f_equal. lra.
  - intros Hz.
    rewrite bool_decide_eq_false_2 in H0 by lra.
    rewrite bool_decide_eq_true_2 in H1 by done.
    split; [|done]. rewrite H0. f_equal. lra.
Qed.

End Iteration.

(** ** Shapes *)

Section Shapes.

Context {Rnd : Type}.
Variable settings : Settings.
Variable _ice : Ice Rnd.
Variable _detector : Detector.

Local Abbreviation body := (Model.body settings _ice _detector).

Lemma length_tf_where {A : Type} (c : list bool) (x y : list A) :
  length (tf_where c x y) = (length c `min` (length x `min` length y))%nat.
Proof. unfold tf_where. by rewrite !length_zip_with. Qed.

Lemma length_zeros (n : nat) : length (zeros n) = n.
Proof. apply length_replicate. Qed.

Lemma length_uni_sample (u : nat -> R) (n : nat) :
  length (uni_sample u n) = n.
Proof. unfold uni_sample. by rewrite length_map, length_seq. Qed.

Lemma length_sampled_directions (theta_u phi_u : nat -> R) (n : nat) :
  length (Model.sampled_directions theta_u phi_u n) = n.
Proof.
  unfold Model.sampled_directions, tf_transpose3.
  rewrite !length_zip_with, !length_map, !length_uni_sample. lia.
Qed.

Lemma length_tf_scatter (dr : Draws Rnd) (vs : list V3) :
  length (Model.tf_scatter dr vs) = length vs.
Proof.
  unfold Model.tf_scatter, rotate_vector_by_quaternion, tf_transpose4.
  unfold Model.tf_sample_normal_vectors.
  repeat (rewrite length_zip_with || rewrite length_map
          || rewrite length_uni_sample || rewrite length_sampled_directions).
  lia.
Qed.

Lemma length_clamp_d_abs (da : list R) :
  length (Model.clamp_d_abs da) = length da.
Proof.
  unfold Model.clamp_d_abs, Model.positive, zeros_like.
  rewrite length_tf_where, length_map, length_zeros. lia.
Qed.

Lemma length_step_distance (d_scat da : list R) :
  length d_scat = length da ->
  length (Model.step_distance d_scat da) = length da.
Proof.
  intros H. unfold Model.step_distance.
  rewrite length_tf_where, length_zip_with. lia.
Qed.

Lemma length_cutoff_update (rs : list V3) (da : list R) :
  length rs = length da ->
  length (Model.cutoff_update settings _detector rs da) = length da.
Proof.
  intros H. unfold Model.cutoff_update, zeros_like.
  destruct (cutoff_enabled _); [|done].
  rewrite length_tf_where, length_map, length_zeros. lia.
Qed.

(** The shapes the collaborators must return. *)
Lemma contract_shapes (n : nat) (dr : Draws Rnd) (s : LoopVars) :
  ice_contract _ice -> detector_contract _detector -> shape_ok n s ->
  length (Model.scatter_distances _ice dr s) = n /\
  length (Model.hit_fractions _ice _detector dr s) = n.
Proof.
  intros Hice Hdet (Ha & Hr & Hv & _).
  assert (Hs : length (Model.scatter_distances _ice dr s) = n).
  { unfold Model.scatter_distances.
    destruct (Hice (ice_rnd dr) (r s)) as (-> & _). done. }
  split; [done|]. unfold Model.hit_fractions.
  destruct (Hdet (r s)
              (Model.step_distance (Model.scatter_distances _ice dr s)
                 (Model.clamp_d_abs (d_abs s))) (v s)) as (-> & _).
  - rewrite length_step_distance; rewrite length_clamp_d_abs; lia.
  - lia.
  - done.
Qed.

Lemma body_shape (n : nat) (dr : Draws Rnd) (s : LoopVars) :
  ice_contract _ice -> detector_contract _detector ->
  shape_ok n s -> shape_ok n (body dr s).
Proof.
  intros Hice Hdet Hs.
  destruct (contract_shapes n dr s Hice Hdet Hs) as (Hsc & Hh).
  destruct Hs as (Ha & Hr & Hv & Ht & Ht0 & Ht1).
  assert (Hd : length (Model.step_distance (Model.scatter_distances _ice dr s)
                         (Model.clamp_d_abs (d_abs s))) = n).
  { rewrite length_step_distance; rewrite length_clamp_d_abs; lia. }
  assert (Hr' : length (r (body dr s)) = n).
  { unfold Model.body; simpl. rewrite !length_zip_with. lia. }
  assert (Ha' : length (d_abs (body dr s)) = n).
  { unfold Model.body in *; simpl in *. rewrite length_cutoff_update.
    - unfold Model.hit_update, zeros_like.
      rewrite length_tf_where, length_map, length_zeros, length_zip_with,
        length_clamp_d_abs. lia.
    - rewrite Hr'. unfold Model.hit_update, zeros_like.
      rewrite length_tf_where, length_map, length_zeros, length_zip_with,
        length_clamp_d_abs. lia. }
  repeat split; try done; unfold Model.body in *; simpl in *;
    unfold Model.positive, zeros_like;
    repeat (rewrite length_zip_with || rewrite length_tf_where
            || rewrite length_map || rewrite length_zeros
            || rewrite length_tf_scatter);
    lia.
Qed.

Lemma iterations_shape (n : nat) (draws : nat -> Draws Rnd) (m k : nat)
    (s : LoopVars) :
  ice_contract _ice -> detector_contract _detector ->
  shape_ok n s ->
  shape_ok n (Model.iterations settings _ice _detector draws k m s).
Proof.
  intros Hice Hdet. revert k s.
  induction m as [|m IH]; intros k s Hs; simpl; [done|].
  apply IH. by apply body_shape.
Qed.

Lemma iterations_succ (draws : nat -> Draws Rnd) (m k : nat) (s : LoopVars) :
  Model.iterations settings _ice _detector draws k (S m) s
  = body (draws (k + m)%nat)
         (Model.iterations settings _ice _detector draws k m s).
Proof.
  revert k s. induction m as [|m IH]; intros k s.
  - simpl. by rewrite Nat.add_0_r.
  - change (Model.iterations settings _ice _detector draws k (S (S m)) s)
      with (Model.iterations settings _ice _detector draws (S k) (S m)
              (body (draws k) s)).
    rewrite IH. simpl. by rewrite Nat.add_succ_r.
Qed.

(** The loop stops on the state reached by the iterations it ran. *)
Lemma tf_while_loop_iterations (draws : nat -> Draws Rnd) (fuel k k' : nat)
    (s s' : LoopVars) :
  tf_while_loop Model.cond (fun j => body (draws j)) fuel k s = Some (k', s') ->
  (k <= k')%nat /\
  s' = Model.iterations settings _ice _detector draws k (k' - k) s /\
  Model.cond s' = false.
Proof.
  revert k s. induction fuel as [|fuel IH]; intros k s; simpl; [done|].
  destruct (Model.cond s) eqn:Hc.
  - intros H. apply IH in H as (Hle & -> & Hstop).
    split; [lia|]. split; [|done].
    replace (k' - k)%nat with (S (k' - S k)) by lia. done.
  - intros [= <- <-]. split; [lia|]. by rewrite Nat.sub_diag.
Qed.

Lemma shape_lane (n i : nat) (s : LoopVars) :
  shape_ok n s -> (i < n)%nat -> is_Some (lane s i).
Proof.
  intros (Ha & Hr & Hv & Ht & Ht0 & Ht1) Hi. unfold lane.
  destruct (lookup_lt_is_Some_2 (d_abs s) i) as [? ->]; [lia|].
  destruct (lookup_lt_is_Some_2 (r s) i) as [? ->]; [lia|].
  destruct (lookup_lt_is_Some_2 (v s) i) as [? ->]; [lia|].
  destruct (lookup_lt_is_Some_2 (t s) i) as [? ->]; [lia|].
  destruct (lookup_lt_is_Some_2 (t_layer_0 s) i) as [? ->]; [lia|].
  destruct (lookup_lt_is_Some_2 (t_layer_1 s) i) as [? ->]; [lia|].
  by eexists.
Qed.

Lemma lane_lookups (s : LoopVars) (i : nat) (ph : Photon) :
  lane s i = Some ph ->
  d_abs s !! i = Some (ph_d_abs ph) /\ r s !! i = Some (ph_r ph) /\
  v s !! i = Some (ph_v ph) /\ t s !! i = Some (ph_t ph) /\
  t_layer_0 s !! i = Some (ph_t_layer_0 ph) /\
  t_layer_1 s !! i = Some (ph_t_layer_1 ph).
Proof.
  unfold lane. intros H.
  destruct (d_abs s !! i); [|done]. destruct (r s !! i); [|done].
  destruct (v s !! i); [|done]. destruct (t s !! i); [|done].
  destruct (t_layer_0 s !! i); [|done]. destruct (t_layer_1 s !! i); [|done].
  simpl in H. by injection H as <-.
Qed.

End Shapes.

(** ** The loop *)

Section Loop.

Context {Rnd : Type}.
Variable settings : Settings.
Variable _ice : Ice Rnd.
Variable _detector : Detector.

Local Abbreviation body := (Model.body settings _ice _detector).
Local Abbreviation iterations := (Model.iterations settings _ice _detector).
Local Abbreviation scatter_distances := (Model.scatter_distances _ice).
Local Abbreviation hit_fractions := (Model.hit_fractions _ice _detector).

(** What one evaluation of [body] makes of one photon. *)
Lemma lane_body (dr : Draws Rnd) (s : LoopVars) (i : nat) (ds h : R)
    (ph : Photon) :
  lane s i = Some ph ->
  scatter_distances dr s !! i = Some ds ->
  hit_fractions dr s !! i = Some h ->
  let d := Rmin ds (Rmax (ph_d_abs ph) 0) in
  let p' := vadd (ph_r ph) (vscale (d * h) (ph_v ph)) in
  let a' := cutoff_row settings _detector p'
              (if bool_decide (h < 1) then 0 else Rmax (ph_d_abs ph) 0 - d) in
  lane (body dr s) i
  = Some (mkPhoton a' p'
            (if bool_decide (a' > 0)
             then scatter_row (scat_u dr i) (normal_theta_u dr i)
                              (normal_phi_u dr i) (ph_v ph)
             else ph_v ph)
            (ph_t ph + d * h)
            (ph_t_layer_0 ph + (if bool_decide (vz p' < 50) then d * h else 0))
            (ph_t_layer_1 ph
             + (if bool_decide (vz p' >= 50) then d * h else 0))).
Proof.
  intros Hl Hds Hh d p' a'.
  apply lane_lookups in Hl as (Ha & Hr & Hv & Ht & Ht0 & Ht1).
  unfold lane.
  rewrite (lookup_body_d_abs settings _ice _detector dr s i _ ds h _ _
             Ha Hds Hh Hr Hv).
  rewrite (lookup_body_r settings _ice _detector dr s i _ ds h _ _
             Ha Hds Hh Hr Hv).
  rewrite (lookup_body_v settings _ice _detector dr s i _ ds h _ _
             Ha Hds Hh Hr Hv).
  rewrite (lookup_body_t settings _ice _detector dr s i _ ds h
             Ha Hds Hh _ Ht).
  rewrite (lookup_body_t_layer_0 settings _ice _detector dr s i _ ds h _ _
             Ha Hds Hh _ Hr Hv Ht0).
  rewrite (lookup_body_t_layer_1 settings _ice _detector dr s i _ ds h _ _
             Ha Hds Hh _ Hr Hv Ht1).
  done.
Qed.

(** Under the contracts, every lane of a well-shaped batch gets a positive
    scatter distance and a hit fraction in [[0, 1]]. *)
Lemma contract_lane (n i : nat) (dr : Draws Rnd) (s : LoopVars) :
  ice_contract _ice -> detector_contract _detector -> shape_ok n s ->
  (i < n)%nat ->
  exists ds h : R,
    scatter_distances dr s !! i = Some ds /\ 0 < ds /\
    hit_fractions dr s !! i = Some h /\ 0 <= h <= 1.
Proof.
  intros Hice Hdet Hs Hi.
  destruct (contract_shapes _ice _detector n dr s Hice Hdet Hs) as (Hl1 & Hl2).
  destruct (lookup_lt_is_Some_2 (scatter_distances dr s) i) as [ds Hds];
    [lia|].
  destruct (lookup_lt_is_Some_2 (hit_fractions dr s) i) as [h Hh]; [lia|].
  exists ds, h. split; [done|]. split.
  - destruct (Hice (ice_rnd dr) (r s)) as (_ & Hpos).
    by apply (Forall_lookup_1 _ _ _ _ Hpos Hds).
  - split; [done|]. destruct Hs as (Ha & Hr & Hv & _).
    destruct (Hdet (r s)
                (Model.step_distance (scatter_distances dr s)
                   (Model.clamp_d_abs (d_abs s))) (v s)) as (_ & Hrange).
    + rewrite length_step_distance; rewrite length_clamp_d_abs; lia.
    + lia.
    + by apply (Forall_lookup_1 _ _ _ _ Hrange Hh).
Qed.

Lemma lane_lt (n i : nat) (s : LoopVars) (ph : Photon) :
  shape_ok n s -> lane s i = Some ph -> (i < n)%nat.
Proof.
  intros (Ha & _) Hl. apply lane_lookups in Hl as (Hl & _).
  apply lookup_lt_Some in Hl. lia.
Qed.

(** C2: a photon whose [d_abs] is 0 comes out of one evaluation of [body]
    with the same position, direction, times and [d_abs], when the medium
    returns positive scatter distances and the detector fractions in
    [[0, 1]]; hence it is the same photon after any number of iterations
    ([m = 1] is the single application). *)
Theorem frozen_photon_unchanged (n : nat) (draws : nat -> Draws Rnd)
    (s : LoopVars) (i : nat) (ph : Photon) :
  ice_contract _ice ->
  detector_contract _detector ->
  shape_ok n s ->
  lane s i = Some ph ->
  ph_d_abs ph = 0 ->
  forall k m : nat, lane (iterations draws k m s) i = Some ph.
Proof.
  intros Hice Hdet Hs Hl Hz k m. revert k s Hs Hl.
  induction m as [|m IH]; intros k s Hs Hl; simpl; [done|].
  apply IH; [by apply body_shape|].
  destruct (contract_lane n i (draws k) s Hice Hdet Hs (lane_lt n i s ph Hs Hl))
    as (ds & h & Hds & Hpos & Hh & _).
  by eapply frozen_step.
Qed.

(** The times of a photon after one evaluation of [body]. *)
Lemma step_times (dr : Draws Rnd) (s : LoopVars) (i : nat) (ds h : R)
    (ph : Photon) :
  lane s i = Some ph ->
  scatter_distances dr s !! i = Some ds ->
  hit_fractions dr s !! i = Some h ->
  exists ph' : Photon,
    lane (body dr s) i = Some ph' /\
    let inc := Rmin ds (Rmax (ph_d_abs ph) 0) * h in
    ph_t ph' = ph_t ph + inc /\
    ((ph_t_layer_0 ph' = ph_t_layer_0 ph + inc /\
      ph_t_layer_1 ph' = ph_t_layer_1 ph) \/
     (ph_t_layer_0 ph' = ph_t_layer_0 ph /\
      ph_t_layer_1 ph' = ph_t_layer_1 ph + inc)).
Proof.
  intros Hl Hds Hh. eexists. split; [by eapply lane_body|].
  simpl. split; [done|].
  set (z := vz (ph_r ph) + _).
  destruct (Rlt_dec z 50) as [Hz|Hz].
  - left. rewrite bool_decide_eq_true_2 by done.
    rewrite bool_decide_eq_false_2 by lra. split; lra.
  - right. rewrite bool_decide_eq_false_2 by done.
    rewrite bool_decide_eq_true_2 by lra. split; lra.
Qed.

Lemma loop_init_shape (dr : InitDraws Rnd) (_r0 _v0 : list V3) :
  absorption_shape _ice -> length _v0 = length _r0 ->
  shape_ok (length _r0) (Model.loop_init _ice dr _r0 _v0).
Proof.
  intros Habs Hv. unfold shape_ok, Model.loop_init; simpl.
  by rewrite Habs, !length_zeros.
Qed.

Lemma loop_init_times (dr : InitDraws Rnd) (_r0 _v0 : list V3) (i : nat)
    (ph : Photon) :
  lane (Model.loop_init _ice dr _r0 _v0) i = Some ph ->
  ph_t ph = 0 /\ ph_t_layer_0 ph = 0 /\ ph_t_layer_1 ph = 0.
Proof.
  intros Hl. apply lane_lookups in Hl as (_ & _ & _ & Ht & Ht0 & Ht1).
  simpl in *.
  apply lookup_zeros_inv in Ht, Ht0, Ht1. done.
Qed.

Lemma body_time_partitioned (n : nat) (dr : Draws Rnd) (s : LoopVars) :
  ice_contract _ice -> detector_contract _detector -> shape_ok n s ->
  time_partitioned s -> time_partitioned (body dr s).
Proof.
  intros Hice Hdet Hs Hinv i ph' Hl'.
  assert (Hi : (i < n)%nat).
  { eapply lane_lt; [|done]. by apply body_shape. }
  destruct (shape_lane n i s Hs Hi) as [ph Hl].
  destruct (contract_lane n i dr s Hice Hdet Hs Hi)
    as (ds & h & Hds & _ & Hh & _).
  destruct (step_times dr s i ds h ph Hl Hds Hh) as (ph2 & Hl2 & Ht & Hor).
  rewrite Hl' in Hl2. injection Hl2 as <-.
  specialize (Hinv i ph Hl). simpl in Hor.
  destruct Hor as [[-> ->] | [-> ->]]; lra.
Qed.

Lemma iterations_time_partitioned (n : nat) (draws : nat -> Draws Rnd)
    (m k : nat) (s : LoopVars) :
  ice_contract _ice -> detector_contract _detector -> shape_ok n s ->
  time_partitioned s -> time_partitioned (iterations draws k m s).
Proof.
  intros Hice Hdet. revert k s.
  induction m as [|m IH]; intros k s Hs Hinv; simpl; [done|].
  apply IH; [by apply body_shape|]. by eapply body_time_partitioned.
Qed.

(** C5: the three times start at 0; on every lane, iteration number [m] adds
    the increment [d * h] to the elapsed time and to exactly one of the two
    layer times; the layer times add up to the elapsed time after every
    number of iterations, and the elapsed time does not decrease when the
    medium and the detector keep their contracts.  The photon is followed
    along a path on which every scattering draw lies in [[0, 1]] and no
    sampled auxiliary direction is parallel to its direction, so that its
    direction and position stay defined. *)
Theorem elapsed_time_partition (dr : InitDraws Rnd) (draws : nat -> Draws Rnd)
    (_r0 _v0 : list V3) (m i : nat) (ph : Photon) :
  ice_contract _ice ->
  absorption_shape _ice ->
  detector_contract _detector ->
  length _v0 = length _r0 ->
  let s0 := Model.loop_init _ice dr _r0 _v0 in
  let sm := iterations draws 0 m s0 in
  lane sm i = Some ph ->
  (forall (j : nat) (phj : Photon),
     (j <= m)%nat ->
     lane (iterations draws 0 j s0) i = Some phj ->
     0 <= scat_u (draws j) i <= 1 /\
     cross (direction_row (normal_theta_u (draws j) i)
                          (normal_phi_u (draws j) i)) (ph_v phj)
       <> vzero) ->
  (forall ph0 : Photon,
     lane s0 i = Some ph0 ->
     ph_t ph0 = 0 /\ ph_t_layer_0 ph0 = 0 /\ ph_t_layer_1 ph0 = 0) /\
  ph_t_layer_0 ph + ph_t_layer_1 ph = ph_t ph /\
  exists (ph' : Photon) (ds h : R),
    lane (iterations draws 0 (S m) s0) i = Some ph' /\
    scatter_distances (draws m) sm !! i = Some ds /\
    hit_fractions (draws m) sm !! i = Some h /\
    let inc := Rmin ds (Rmax (ph_d_abs ph) 0) * h in
    0 <= inc /\
    ph_t ph' = ph_t ph + inc /\
    ((ph_t_layer_0 ph' = ph_t_layer_0 ph + inc /\
      ph_t_layer_1 ph' = ph_t_layer_1 ph) \/
     (ph_t_layer_0 ph' = ph_t_layer_0 ph /\
      ph_t_layer_1 ph' = ph_t_layer_1 ph + inc)) /\
    ph_t ph <= ph_t ph' /\
    ph_t_layer_0 ph' + ph_t_layer_1 ph' = ph_t ph'.
Proof.
  intros Hice Habs Hdet Hlen s0 sm Hl _.
  assert (Hs0 : shape_ok (length _r0) s0) by by apply loop_init_shape.
  assert (Hsm : shape_ok (length _r0) sm) by by apply iterations_shape.
  assert (Hp0 : time_partitioned s0).
  { intros j ph0 Hj. apply loop_init_times in Hj as (-> & -> & ->). lra. }
  assert (Hpm : time_partitioned sm).
  { by eapply iterations_time_partitioned. }
  split; [intros ph0; apply loop_init_times|].
  split; [by apply (Hpm i)|].
  pose proof (lane_lt _ _ _ _ Hsm Hl) as Hi.
  destruct (contract_lane _ i (draws m) sm Hice Hdet Hsm Hi)
    as (ds & h & Hds & Hpos & Hh & Hrange).
  destruct (step_times (draws m) sm i ds h ph Hl Hds Hh)
    as (ph' & Hl' & Ht & Hor).
  exists ph', ds, h.
  assert (Hinc : 0 <= Rmin ds (Rmax (ph_d_abs ph) 0) * h).
  { apply Rmult_le_pos; [|lra]. unfold Rmin, Rmax.
    destruct (Rle_dec (ph_d_abs ph) 0); destruct (Rle_dec ds _); lra. }
  assert (Hl'' : lane (iterations draws 0 (S m) s0) i = Some ph').
  { rewrite iterations_succ. done. }
  split; [done|]. split; [done|]. split; [done|]. simpl.
  split; [done|]. split; [done|]. split; [done|]. split; [lra|].
  eapply (iterations_time_partitioned (length _r0) draws (S m) 0 s0);
    done.
Qed.

End Loop.

(** ** Cascade initialization *)

Section Cascades.

Lemma length_tf_tile {A : Type} (x : list A) (k : nat) :
  length (tf_tile x k) = (k * length x)%nat.
Proof.
  unfold tf_tile. induction k as [|k IH]; simpl; [done|].
  rewrite length_app, IH. lia.
Qed.

Lemma lookup_tf_tile {A : Type} (x : list A) (k i : nat) :
  (i < k * length x)%nat ->
  tf_tile x k !! i = x !! (i mod length x)%nat.
Proof.
  unfold tf_tile. revert i. induction k as [|k IH]; intros i Hi; [lia|].
  simpl. destruct (decide (i < length x)%nat) as [Hlt|Hge].
  - rewrite lookup_app_l by done. by rewrite Nat.mod_small.
  - rewrite lookup_app_r by lia. rewrite IH by lia.
    f_equal.
    replace i with ((i - length x) + 1 * length x)%nat at 2 by lia.
    rewrite Nat.Div0.mod_add. done.
Qed.

Lemma filter_tf_tile {A : Type} (P : A -> Prop) `{!forall a, Decision (P a)}
    (x : list A) (k : nat) :
  length (filter P (tf_tile x k)) = (k * length (filter P x))%nat.
Proof.
  unfold tf_tile. induction k as [|k IH]; simpl; [done|].
  rewrite filter_app, length_app, IH. lia.
Qed.

Lemma filter_eq_not_elem {A : Type} `{!EqDecision A} (x : list A) (o : A) :
  o ∉ x -> filter (fun a => a = o) x = [].
Proof.
  induction x as [|a x IH]; intros Hn; [done|].
  apply not_elem_of_cons in Hn as [Hne Hn].
  rewrite filter_cons_False by congruence. by apply IH.
Qed.

Lemma filter_eq_NoDup {A : Type} `{!EqDecision A} (x : list A) (o : A) :
  NoDup x -> o ∈ x -> length (filter (fun a => a = o) x) = 1%nat.
Proof.
  induction 1 as [|a x Hnin Hnd IH]; intros Hin.
  - by apply elem_of_nil in Hin.
  - rewrite filter_cons. destruct (decide (a = o)) as [->|Hne].
    + simpl. by rewrite filter_eq_not_elem.
    + apply elem_of_cons in Hin as [->|Hin]; [done|]. by apply IH.
Qed.

Lemma divide_div (b c : nat) : c <> 0%nat -> (c | b)%nat -> (b / c * c = b)%nat.
Proof. intros Hc [q ->]. by rewrite Nat.div_mul. Qed.

Variable settings : Settings.
Context {Rnd : Type}.

Local Abbreviation B := (BATCH_SIZE settings).
Local Abbreviation C := (CASCADES_PER_STEP settings).

Lemma tf_init_cascades_Some (r_cascades : list V3) (dr : InitDraws Rnd) :
  C <> 0%nat ->
  Model.tf_init_cascades settings r_cascades dr
  = Some (tf_tile r_cascades (B / C),
          Model.sampled_directions (init_theta_u dr) (init_phi_u dr) B).
Proof.
  intros Hc. unfold Model.tf_init_cascades, int_div.
  by rewrite decide_False by done.
Qed.

(** C9: with [C] pairwise different origins and [B / C] an integer, the
    batch of initial positions has exactly [B] entries, each of them is one
    of the origins, and each origin is the initial position of exactly
    [B / C] photons. *)
Theorem cascade_replication (r_cascades : list V3) (dr : InitDraws Rnd) :
  C <> 0%nat ->
  length r_cascades = C ->
  (C | B)%nat ->
  NoDup r_cascades ->
  exists _r0 _v0 : list V3,
    Model.tf_init_cascades settings r_cascades dr = Some (_r0, _v0) /\
    length _r0 = B /\
    (forall p : V3, p ∈ _r0 -> p ∈ r_cascades) /\
    (forall o : V3,
       o ∈ r_cascades ->
       length (filter (fun p => p = o) _r0) = (B / C)%nat).
Proof.
  intros Hc Hlen Hdiv Hnd.
  eexists _, _. split; [by apply tf_init_cascades_Some|].
  split; [|split].
  - rewrite length_tf_tile, Hlen. by apply divide_div.
  - intros p Hp. apply list_elem_of_lookup in Hp as [i Hi].
    rewrite lookup_tf_tile in Hi.
    + by eapply list_elem_of_lookup_2.
    + apply lookup_lt_Some in Hi. by rewrite length_tf_tile in Hi.
  - intros o Ho. rewrite filter_tf_tile, filter_eq_NoDup by done. lia.
Qed.

(** C10: the initial positions tile the whole array of origins: photon [i]
    starts at origin number [i mod C], so the photons of one cascade sit at
    the indices of one residue modulo [C]; with more than one cascade,
    neighbouring photons belong to different cascades: the layout is
    interleaved, not one consecutive block per cascade. *)
Theorem cascade_round_robin (r_cascades : list V3) (dr : InitDraws Rnd) :
  C <> 0%nat ->
  length r_cascades = C ->
  (C | B)%nat ->
  exists _r0 _v0 : list V3,
    Model.tf_init_cascades settings r_cascades dr = Some (_r0, _v0) /\
    length _r0 = B /\
    (forall i : nat,
       (i < B)%nat -> _r0 !! i = r_cascades !! (i mod C)%nat) /\
    (forall i j : nat,
       (i < B)%nat -> (j < B)%nat -> (i mod C = j mod C)%nat ->
       _r0 !! i = _r0 !! j) /\
    (forall i : nat,
       (1 < C)%nat -> (S i < B)%nat -> (S i mod C)%nat <> (i mod C)%nat).
Proof.
  intros Hc Hlen Hdiv.
  assert (HB : (B / C * length r_cascades = B)%nat).
  { rewrite Hlen. by apply divide_div. }
  eexists _, _. split; [by apply tf_init_cascades_Some|].
  split; [|split; [|split]].
  - by rewrite length_tf_tile.
  - intros i Hi. rewrite lookup_tf_tile by lia. by rewrite Hlen.
  - intros i j Hi Hj Hij. rewrite !lookup_tf_tile by lia.
    by rewrite Hlen, Hij.
  - intros i HC _ Heq.
    pose proof (Nat.div_mod_eq i C) as H1.
    pose proof (Nat.div_mod_eq (S i) C) as H2.
    rewrite Heq in H2. revert H1 H2.
    generalize (i / C)%nat (S i / C)%nat (i mod C)%nat. intros q1 q2 m H1 H2.
    assert (Hq : (C * q2 = C * q1 + 1)%nat) by lia.
    destruct (Nat.lt_trichotomy q1 q2) as [Hlt | [-> | Hgt]]; nia.
Qed.

End Cascades.

(** ** The guard of the loop *)

Section Guard.

Lemma foldl_Rmax_pos (l : list R) (a : R) :
  0 < foldl Rmax a l <-> 0 < a \/ Exists (fun x => 0 < x) l.
Proof.
  revert a. induction l as [|x l IH]; intros a; simpl.
  - split; [by left|]. intros [H|H]; [done|]. by apply Exists_nil in H.
  - rewrite IH, Exists_cons.
    assert (Hm : 0 < Rmax a x <-> 0 < a \/ 0 < x).
    { unfold Rmax. destruct (Rle_dec a x); split; intros H; try tauto.
      - destruct H; lra.
      - destruct H; lra. }
    tauto.
Qed.

Lemma cond_true_iff (s : LoopVars) :
  Model.cond s = true <-> Exists (fun x => 0 < x) (d_abs s).
Proof.
  unfold Model.cond, reduce_max, tf_less.
  destruct (d_abs s) as [|a l].
  - split; [done|]. intros H. by apply Exists_nil in H.
  - rewrite bool_decide_eq_true, foldl_Rmax_pos, Exists_cons. done.
Qed.

Lemma cond_false_all_zero (s : LoopVars) :
  (forall (i : nat) (x : R), d_abs s !! i = Some x -> x = 0) ->
  Model.cond s = false.
Proof.
  intros H. apply not_true_iff_false. rewrite cond_true_iff.
  intros Hex. apply Exists_exists in Hex as (x & Hx & Hpos).
  apply list_elem_of_lookup in Hx as [i Hi]. apply H in Hi. lra.
Qed.

End Guard.

(** ** The deterministic scenario *)

Section Scenario.

Context {Rnd : Type}.
Variable settings : Settings.
Variable _ice : Ice Rnd.
Variable _detector : Detector.

Local Abbreviation body := (Model.body settings _ice _detector).
Local Abbreviation B := (BATCH_SIZE settings).
Local Abbreviation C := (CASCADES_PER_STEP settings).

Hypothesis Hscat :
  forall (rnd : Rnd) (rs : list V3),
    tf_sample_scatter _ice rnd rs = replicate (length rs) 10.
Hypothesis Habs :
  forall (rnd : Rnd) (rs : list V3),
    tf_sample_absorption _ice rnd rs = replicate (length rs) 5.
Hypothesis Hhit :
  forall (rs : list V3) (ds : list R) (vs : list V3),
    tf_check_for_hits _detector rs ds vs = replicate (length rs) 1.
Hypothesis Hcut : cutoff_enabled (CUTOFF_RADIUS settings) = None.

Lemma scenario_ice_contract : ice_contract _ice.
Proof.
  intros rnd rs. rewrite Hscat, length_replicate.
  split; [done|]. apply Forall_replicate. lra.
Qed.

Lemma scenario_absorption_shape : absorption_shape _ice.
Proof. intros rnd rs. by rewrite Habs, length_replicate. Qed.

Lemma scenario_detector_contract : detector_contract _detector.
Proof.
  intros rs ds vs _ _. rewrite Hhit, length_replicate.
  split; [done|]. apply Forall_replicate. lra.
Qed.

(** The first iteration of the scenario, on one lane. *)
Lemma scenario_first_iteration (dr : InitDraws Rnd) (dr0 : Draws Rnd)
    (_r0 _v0 : list V3) (i : nat) (p0 dir0 : V3) :
  length _v0 = length _r0 ->
  _r0 !! i = Some p0 -> _v0 !! i = Some dir0 ->
  let s1 := body dr0 (Model.loop_init _ice dr _r0 _v0) in
  d_abs s1 !! i = Some 0 /\
  t s1 !! i = Some 5 /\
  r s1 !! i = Some (vadd p0 (vscale 5 dir0)).
Proof.
  intros Hlen Hr Hv s1.
  pose proof (lookup_lt_Some _ _ _ Hr) as Hi.
  set (s0 := Model.loop_init _ice dr _r0 _v0) in *.
  assert (Ha : d_abs s0 !! i = Some 5).
  { unfold s0, Model.loop_init; simpl. rewrite Habs.
    by apply lookup_replicate_2. }
  assert (Hds : Model.scatter_distances _ice dr0 s0 !! i = Some 10).
  { unfold Model.scatter_distances. rewrite Hscat.
    by apply lookup_replicate_2. }
  assert (Hh : Model.hit_fractions _ice _detector dr0 s0 !! i = Some 1).
  { unfold Model.hit_fractions. rewrite Hhit. by apply lookup_replicate_2. }
  assert (Ht : t s0 !! i = Some 0) by by apply lookup_zeros.
  assert (Hd : Rmin 10 (Rmax 5 0) = 5).
  { unfold Rmin, Rmax. destruct (Rle_dec 5 0); destruct (Rle_dec 10 _); lra. }
  assert (Hm : Rmax 5 0 = 5).
  { unfold Rmax. destruct (Rle_dec 5 0); lra. }
  split; [|split].
  - unfold s1.
    rewrite (lookup_body_d_abs settings _ice _detector dr0 s0 i 5 10 1 p0 dir0
               Ha Hds Hh Hr Hv).
    unfold cutoff_row. rewrite Hcut, Hd, Hm.
    rewrite bool_decide_eq_false_2 by lra. f_equal. lra.
  - unfold s1.
    rewrite (lookup_body_t settings _ice _detector dr0 s0 i 5 10 1
               Ha Hds Hh 0 Ht).
    rewrite Hd. f_equal. lra.
  - unfold s1.
    rewrite (lookup_body_r settings _ice _detector dr0 s0 i 5 10 1 p0 dir0
               Ha Hds Hh Hr Hv).
    rewrite Hd. do 3 f_equal. lra.
Qed.

(** C6: with a medium whose scatter distance is always 10 and whose
    absorption distance is always 5, a detector whose fraction is always 1
    and no cutoff radius, the loop stops, after exactly one iteration when
    the batch holds a photon (and at once when it holds none), and every
    photon ends with [d_abs = 0], elapsed time 5 and position
    [initial position + 5 * initial direction]. *)
Theorem one_step_scenario (r_cascades : list V3) (dr : InitDraws Rnd)
    (draws : nat -> Draws Rnd) :
  C <> 0%nat ->
  length r_cascades = C ->
  (C | B)%nat ->
  exists (_r0 _v0 : list V3) (final : LoopVars),
    Model.tf_init_cascades settings r_cascades dr = Some (_r0, _v0) /\
    length _r0 = B /\ length _v0 = B /\
    (forall fuel : nat,
       (2 <= fuel)%nat ->
       Model.run settings _ice _detector r_cascades dr draws fuel
       = Some (if decide (B = 0%nat) then 0%nat else 1%nat, final)) /\
    shape_ok B final /\
    (forall (i : nat) (p0 dir0 : V3),
       _r0 !! i = Some p0 -> _v0 !! i = Some dir0 ->
       d_abs final !! i = Some 0 /\
       t final !! i = Some 5 /\
       r final !! i = Some (vadd p0 (vscale 5 dir0))).
Proof.
  intros Hc Hlen Hdiv.
  set (_r0 := tf_tile r_cascades (B / C)).
  set (_v0 := Model.sampled_directions (init_theta_u dr) (init_phi_u dr) B).
  assert (Hinit : Model.tf_init_cascades settings r_cascades dr
                  = Some (_r0, _v0)) by by apply tf_init_cascades_Some.
  assert (Hr0 : length _r0 = B).
  { unfold _r0. rewrite length_tf_tile, Hlen. by apply divide_div. }
  assert (Hv0 : length _v0 = B) by apply length_sampled_directions.
  set (s0 := Model.loop_init _ice dr _r0 _v0).
  assert (Hs0 : shape_ok B s0).
  { rewrite <- Hr0.
    apply loop_init_shape; [apply scenario_absorption_shape|]. lia. }
  assert (Hrun : forall fuel,
             Model.run settings _ice _detector r_cascades dr draws fuel
             = tf_while_loop Model.cond (fun k => body (draws k)) fuel 0 s0).
  { intros fuel. unfold Model.run. rewrite Hinit. done. }
  destruct (decide (B = 0%nat)) as [HB|HB].
  - exists _r0, _v0, s0.
    split; [done|]. split; [done|]. split; [done|]. split; [|split; [done|]].
    + intros fuel Hf. rewrite Hrun.
      destruct fuel as [|fuel]; [lia|]. simpl.
      rewrite cond_false_all_zero; [done|].
      intros i x Hi. apply lookup_lt_Some in Hi.
      destruct Hs0 as (Ha & _). lia.
    + intros i p0 dir0 Hp _. apply lookup_lt_Some in Hp. lia.
  - set (s1 := body (draws 0%nat) s0).
    assert (Hs1 : shape_ok B s1).
    { apply body_shape;
        [apply scenario_ice_contract|apply scenario_detector_contract|done]. }
    assert (Hlane : forall i p0 dir0,
               _r0 !! i = Some p0 -> _v0 !! i = Some dir0 ->
               d_abs s1 !! i = Some 0 /\ t s1 !! i = Some 5 /\
               r s1 !! i = Some (vadd p0 (vscale 5 dir0))).
    { intros i p0 dir0 Hp Hd.
      apply (scenario_first_iteration dr (draws 0%nat) _r0 _v0 i p0 dir0);
        [lia|done|done]. }
    exists _r0, _v0, s1.
    split; [done|]. split; [done|]. split; [done|].
    split; [|split; [done|done]].
    intros fuel Hf. rewrite Hrun.
    destruct fuel as [|[|fuel]]; [lia|lia|]. simpl.
    assert (Hc0 : Model.cond s0 = true).
    { apply cond_true_iff, Exists_exists. exists 5. split; [|lra].
      unfold s0, Model.loop_init; simpl. rewrite Habs.
      apply list_elem_of_lookup. exists 0%nat.
      apply lookup_replicate_2. lia. }
    rewrite Hc0. fold s1.
    rewrite (cond_false_all_zero s1); [done|].
    intros i x Hi.
    assert (Hlt : (i < B)%nat).
    { apply lookup_lt_Some in Hi. destruct Hs1 as (Ha & _). lia. }
    destruct (lookup_lt_is_Some_2 _r0 i) as [p0 Hp]; [lia|].
    destruct (lookup_lt_is_Some_2 _v0 i) as [dir0 Hd]; [lia|].
    destruct (Hlane i p0 dir0 Hp Hd) as (Hz & _). congruence.
Qed.

End Scenario.

(** ** Scattering *)

Section Scatter.

Context {Rnd : Type}.

Lemma tf_pow_range (u e : R) : 0 <= u <= 1 -> 0 <= e -> 0 <= tf_pow u e <= 1.
Proof.
  intros [H0 H1] He. unfold tf_pow. destruct (decide (u = 0)); [lra|].
  unfold Rpower. split; [left; apply exp_pos|].
  assert (Hln : ln u <= 0).
  { destruct (Req_dec u 1) as [->|Hne]; [rewrite ln_1; lra|].
    left. rewrite <- ln_1. apply ln_increasing; lra. }
  assert (Hx : e * ln u <= 0) by nra.
  destruct Hx as [Hx|Hx].
  - left. rewrite <- exp_0. by apply exp_increasing.
  - rewrite Hx, exp_0. lra.
Qed.

Lemma half_angle_unit (c : R) :
  -1 <= c <= 1 ->
  sqrt ((c + 1) / 2) * sqrt ((c + 1) / 2)
  + sqrt ((1 - c) / 2) * sqrt ((1 - c) / 2) = 1.
Proof.
  intros Hc. rewrite !sqrt_sqrt by lra. lra.
Qed.

Lemma norm_sq_nonneg (a : V3) : 0 <= norm_sq a.
Proof. unfold norm_sq. nra. Qed.

Lemma norm_sq_pos (a : V3) : a <> vzero -> 0 < norm_sq a.
Proof.
  intros Hne. destruct (Rle_lt_or_eq_dec _ _ (norm_sq_nonneg a)) as [|Hz];
    [done|].
  exfalso. apply Hne. destruct a as [x y z]. unfold norm_sq in Hz.
  simpl in Hz. unfold vzero.
  assert (x = 0) by nra. assert (y = 0) by nra. assert (z = 0) by nra.
  by subst.
Qed.

Lemma norm_unit_iff (a : V3) : norm a = 1 <-> norm_sq a = 1.
Proof.
  unfold norm. split; intros H.
  - rewrite <- (sqrt_sqrt (norm_sq a)) by apply norm_sq_nonneg.
    rewrite H. lra.
  - rewrite H. apply sqrt_1.
Qed.

Lemma cross_orthogonal (a b : V3) : vdot (cross a b) b = 0.
Proof. unfold vdot, cross; simpl. ring. Qed.

Lemma vdiv_norm_unit (c : V3) :
  c <> vzero -> norm_sq (vdiv c (norm c)) = 1.
Proof.
  intros Hne. pose proof (norm_sq_pos c Hne) as Hpos.
  assert (Hn : 0 < norm c) by by apply sqrt_lt_R0.
  assert (Hsq : norm c * norm c = norm_sq c).
  { unfold norm. apply sqrt_sqrt. lra. }
  revert Hn Hsq. generalize (norm c). intros k Hk Hsq.
  destruct c as [x y z]. unfold norm_sq, vdiv in *; simpl in *.
  field_simplify_eq; [|lra]. nra.
Qed.

Lemma vdot_vdiv (c b : V3) (k : R) : vdot (vdiv c k) b = vdot c b / k.
Proof. unfold vdot, vdiv; simpl. unfold Rdiv. ring. Qed.

(** A row of [tf_sample_normal_vectors] is a unit vector orthogonal to the
    direction, when the cross product does not vanish. *)
Lemma normal_row_unit (theta_u phi_u : R) (dir : V3) :
  cross (direction_row theta_u phi_u) dir <> vzero ->
  norm_sq (normal_row theta_u phi_u dir) = 1 /\
  vdot (normal_row theta_u phi_u dir) dir = 0.
Proof.
  intros Hne. unfold normal_row. split.
  - by apply vdiv_norm_unit.
  - rewrite vdot_vdiv, cross_orthogonal. unfold Rdiv. ring.
Qed.

(** A rotation by a unit quaternion whose axis is orthogonal to the vector
    keeps the norm. *)
Lemma rotate_row_unit (w s : R) (n dir : V3) :
  vdot n dir = 0 -> norm_sq n = 1 -> norm_sq dir = 1 -> w * w + s * s = 1 ->
  norm_sq (rotate_row (mkQuaternion w (vx n * s) (vy n * s) (vz n * s)) dir)
  = 1.
Proof.
  destruct n as [nx ny nz], dir as [x y z].
  unfold vdot, norm_sq, rotate_row, q_xyz, cross, vadd, vscale; simpl.
  intros Ho Hn Hd Hq. nsatz.
Qed.

(** The quaternion of [tf_scatter] is a unit quaternion. *)
Lemma scatter_quaternion_unit (u theta_u phi_u : R) (dir : V3) :
  0 <= u <= 1 ->
  cross (direction_row theta_u phi_u) dir <> vzero ->
  q_norm_sq (scatter_quaternion u theta_u phi_u dir) = 1.
Proof.
  intros Hu Hne.
  destruct (normal_row_unit theta_u phi_u dir Hne) as (Hn & _).
  pose proof (tf_pow_range u (1 / 19) Hu ltac:(lra)) as Hp.
  pose proof (half_angle_unit (2 * tf_pow u (1 / 19) - 1) ltac:(lra)) as Hh.
  unfold q_norm_sq, scatter_quaternion; simpl.
  unfold norm_sq in Hn.
  set (n := normal_row theta_u phi_u dir) in *.
  set (w := sqrt ((2 * tf_pow u (1 / 19) - 1 + 1) / 2)) in *.
  set (s := sqrt ((1 - (2 * tf_pow u (1 / 19) - 1)) / 2)) in *.
  nsatz.
Qed.

(** Normalizing the quaternion of [tf_scatter] changes nothing. *)
Lemma scatter_quaternion_normalized (u theta_u phi_u : R) (dir : V3) :
  0 <= u <= 1 ->
  cross (direction_row theta_u phi_u) dir <> vzero ->
  q_normalized (scatter_quaternion u theta_u phi_u dir)
  = scatter_quaternion u theta_u phi_u dir.
Proof.
  intros Hu Hne. unfold q_normalized.
  rewrite (scatter_quaternion_unit u theta_u phi_u dir Hu Hne), sqrt_1.
  destruct (scatter_quaternion u theta_u phi_u dir) as [a b c d]; simpl.
  f_equal; lra.
Qed.

Lemma scatter_row_unit (u theta_u phi_u : R) (dir : V3) :
  norm dir = 1 ->
  0 <= u <= 1 ->
  cross (direction_row theta_u phi_u) dir <> vzero ->
  norm (scatter_row u theta_u phi_u dir) = 1.
Proof.
  intros Hd Hu Hne. apply norm_unit_iff. apply norm_unit_iff in Hd.
  destruct (normal_row_unit theta_u phi_u dir Hne) as (Hn & Ho).
  pose proof (tf_pow_range u (1 / 19) Hu ltac:(lra)) as Hp.
  unfold scatter_row, scatter_quaternion.
  apply rotate_row_unit; try done.
  apply half_angle_unit. lra.
Qed.

(** C4: on every lane whose direction has norm 1, whose scattering draw [u]
    lies in [[0, 1]] and whose sampled auxiliary direction has a non-zero
    cross product with the direction, [tf_scatter] returns a direction of
    norm 1 (in real arithmetic). *)
Theorem tf_scatter_unit_norm (dr : Draws Rnd) (vs : list V3) (i : nat)
    (dir : V3) :
  vs !! i = Some dir ->
  norm dir = 1 ->
  0 <= scat_u dr i <= 1 ->
  cross (direction_row (normal_theta_u dr i) (normal_phi_u dr i)) dir
    <> vzero ->
  exists out : V3,
    Model.tf_scatter dr vs !! i = Some out /\ norm out = 1.
Proof.
  intros Hv Hd Hu Hne. eexists. split.
  - by apply lookup_tf_scatter.
  - by apply scatter_row_unit.
Qed.

End Scatter.

(** ** Concrete runs *)

Section Runs.

Lemma constant_ice_contract (scat absorb : R) :
  0 < scat -> ice_contract (constant_ice scat absorb).
Proof.
  intros Hs rnd rs. simpl. rewrite length_replicate.
  split; [done|]. by apply Forall_replicate.
Qed.

Lemma constant_ice_absorption_shape (scat absorb : R) :
  absorption_shape (constant_ice scat absorb).
Proof. intros rnd rs. simpl. by rewrite length_replicate. Qed.

Lemma constant_detector_contract (h lx ly lz : R) :
  0 <= h <= 1 -> detector_contract (constant_detector h lx ly lz).
Proof.
  intros Hh rs ds vs _ _. simpl. rewrite length_replicate.
  split; [done|]. by apply Forall_replicate.
Qed.

Lemma two_origins_NoDup : NoDup two_origins.
Proof.
  unfold two_origins. apply NoDup_cons. split.
  - intros Hin. apply list_elem_of_singleton in Hin.
    injection Hin as Hz. lra.
  - apply NoDup_singleton.
Qed.

Lemma cutoff_enabled_1 : cutoff_enabled (CUTOFF_RADIUS settings_cutoff) = Some 1.
Proof. simpl. destruct (decide (1 = 0)); [lra|done]. Qed.

Lemma z_axis_unit : norm (mkV3 0 0 1) = 1.
Proof.
  unfold norm, norm_sq; simpl.
  replace (0 * 0 + 0 * 0 + 1 * 1) with 1 by ring. apply sqrt_1.
Qed.

Lemma x_axis_cross_z_axis :
  cross (direction_row (1 / 2) 0) (mkV3 0 0 1) <> vzero.
Proof.
  unfold direction_row, cross, vzero; simpl. intros Heq.
  injection Heq as _ Hy _. revert Hy.
  replace (1 / 2 * PI) with (PI / 2) by lra.
  replace (0 * 2 * PI) with 0 by lra.
  rewrite sin_PI2, cos_PI2, cos_0. lra.
Qed.

(** Two cascades, four photons: the origins alternate along the batch. *)
Example tile_two_origins :
  tf_tile two_origins 2
  = [mkV3 0 0 0; mkV3 0 0 60; mkV3 0 0 0; mkV3 0 0 60].
Proof. reflexivity. Qed.

(** A photon that starts at z = 48 and moves 5 units up ends at z = 53: the
    whole increment goes to the upper layer. *)
Example step_across_the_layers :
  let s := mkLoopVars [5] [mkV3 0 0 48] [mkV3 0 0 1] [0] [0] [0] in
  let s' := Model.body settings_no_cutoff (constant_ice 10 5)
              (constant_detector 1 100 100 100) (constant_draws 1 (1 / 2) 0)
              s in
  exists z t0 t1 : R,
    vz <$> r s' !! 0%nat = Some z /\ z = 53 /\
    t_layer_0 s' !! 0%nat = Some t0 /\ t0 = 0 /\
    t_layer_1 s' !! 0%nat = Some t1 /\ t1 = 5.
Proof.
  intros s s'.
  assert (Hd : Rmin 10 (Rmax 5 0) = 5).
  { unfold Rmin, Rmax. destruct (Rle_dec 5 0); destruct (Rle_dec 10 _); lra. }
  pose proof (lookup_body_r settings_no_cutoff (constant_ice 10 5)
                (constant_detector 1 100 100 100) (constant_draws 1 (1 / 2) 0)
                s 0 5 10 1 (mkV3 0 0 48) (mkV3 0 0 1)
                eq_refl eq_refl eq_refl eq_refl eq_refl) as Hr.
  pose proof (lookup_body_t_layer_0 settings_no_cutoff (constant_ice 10 5)
                (constant_detector 1 100 100 100) (constant_draws 1 (1 / 2) 0)
                s 0 5 10 1 (mkV3 0 0 48) (mkV3 0 0 1)
                eq_refl eq_refl eq_refl 0 eq_refl eq_refl eq_refl) as H0.
  pose proof (lookup_body_t_layer_1 settings_no_cutoff (constant_ice 10 5)
                (constant_detector 1 100 100 100) (constant_draws 1 (1 / 2) 0)
                s 0 5 10 1 (mkV3 0 0 48) (mkV3 0 0 1)
                eq_refl eq_refl eq_refl 0 eq_refl eq_refl eq_refl) as H1.
  cbv zeta in Hr, H0, H1. unfold vadd, vscale in Hr, H0, H1.
  cbn [vx vy vz] in Hr, H0, H1. rewrite Hd in Hr, H0, H1.
  rewrite bool_decide_eq_false_2 in H0 by lra.
  rewrite bool_decide_eq_true_2 in H1 by lra.
  fold s' in Hr, H0, H1. rewrite Hr, H0, H1. simpl.
  eexists _, _, _.
  split; [reflexivity|]. split; [lra|].
  split; [reflexivity|]. split; [lra|].
  split; [reflexivity|]. lra.
Qed.

Lemma body_transition_witness :
  r (Model.body settings_no_cutoff (constant_ice 10 5)
       (constant_detector 1 100 100 100) (constant_draws 1 (1 / 2) 0)
       one_photon) !! 0%nat
  = Some (vadd (mkV3 0 0 0) (vscale (Rmin 10 (Rmax 5 0) * 1) (mkV3 0 0 1))).
Proof.
  destruct (body_transition settings_no_cutoff (constant_ice 10 5)
              (constant_detector 1 100 100 100) (constant_draws 1 (1 / 2) 0)
              one_photon 0 5 10 1 (mkV3 0 0 0) (mkV3 0 0 1)
              eq_refl eq_refl eq_refl eq_refl eq_refl)
    as (_ & _ & _ & Hr & _).
  exact Hr.
Defined.

Lemma frozen_photon_unchanged_witness :
  lane (Model.iterations settings_no_cutoff (constant_ice 10 5)
          (constant_detector 1 100 100 100)
          (fun _ => constant_draws 1 (1 / 2) 0) 0 3 one_frozen_photon) 0
  = Some (mkPhoton 0 (mkV3 0 0 0) (mkV3 0 0 1) 3 3 0).
Proof.
  apply (frozen_photon_unchanged settings_no_cutoff (constant_ice 10 5)
           (constant_detector 1 100 100 100) 1).
  - apply constant_ice_contract; lra.
  - apply constant_detector_contract; lra.
  - repeat split.
  - reflexivity.
  - reflexivity.
Defined.

Lemma d_abs_monotone_witness :
  exists a_out : R,
    d_abs (Model.body settings_no_cutoff (constant_ice 10 5)
             (constant_detector 1 100 100 100) (constant_draws 1 (1 / 2) 0)
             one_photon) !! 0%nat = Some a_out /\ 0 <= a_out <= 5.
Proof.
  apply (d_abs_monotone settings_no_cutoff (constant_ice 10 5)
           (constant_detector 1 100 100 100) (constant_draws 1 (1 / 2) 0)
           one_photon 0 5 10 1 (mkV3 0 0 0) (mkV3 0 0 1));
    try reflexivity; lra.
Defined.

Lemma tf_scatter_unit_norm_witness :
  exists out : V3,
    Model.tf_scatter (constant_draws 1 (1 / 2) 0) [mkV3 0 0 1] !! 0%nat
    = Some out /\ norm out = 1.
Proof.
  apply (tf_scatter_unit_norm (constant_draws 1 (1 / 2) 0) [mkV3 0 0 1] 0
           (mkV3 0 0 1)).
  - reflexivity.
  - apply z_axis_unit.
  - simpl. lra.
  - apply x_axis_cross_z_axis.
Defined.

(** With the draw [u = 1] the sampled angle is 0 and the direction is kept. *)
Lemma scatter_row_forward (theta_u phi_u : R) (dir : V3) :
  scatter_row 1 theta_u phi_u dir = dir.
Proof.
  unfold scatter_row, scatter_quaternion.
  assert (Hp : tf_pow 1 (1 / 19) = 1).
  { unfold tf_pow. destruct (decide (1 = 0)); [lra|].
    unfold Rpower. by rewrite ln_1, Rmult_0_r, exp_0. }
  rewrite Hp.
  replace ((2 * 1 - 1 + 1) / 2) with 1 by lra.
  replace ((1 - (2 * 1 - 1)) / 2) with 0 by lra.
  rewrite sqrt_1, sqrt_0.
  destruct (normal_row theta_u phi_u dir) as [nx ny nz].
  destruct dir as [x y z].
  unfold rotate_row, q_xyz, cross, vadd, vscale; simpl. f_equal; ring.
Qed.

Lemma Rmin_10_25 : Rmin 10 (Rmax 25 0) = 10.
Proof.
  unfold Rmin, Rmax. destruct (Rle_dec 25 0); destruct (Rle_dec 10 _); lra.
Qed.

(** A photon with 25 units until absorption that starts at z = 45: after the
    first iteration it is still active, has been scattered, and has logged
    10 units, all of them in the upper layer. *)
Lemma elapsed_time_partition_witness :
  exists ph : Photon,
    lane (Model.body settings_no_cutoff (constant_ice 10 25)
            (constant_detector 1 100 100 100) (constant_draws 1 (1 / 2) 0)
            (Model.loop_init (constant_ice 10 25)
               (constant_init_draws (1 / 2) 0) [mkV3 0 0 45] [mkV3 0 0 1]))
         0 = Some ph /\
    ph_d_abs ph = 15 /\
    ph_t ph = 10 /\
    ph_t_layer_1 ph = 10 /\
    ph_t_layer_0 ph + ph_t_layer_1 ph = ph_t ph.
Proof.
  pose proof (lane_body settings_no_cutoff (constant_ice 10 25)
                (constant_detector 1 100 100 100) (constant_draws 1 (1 / 2) 0)
                (Model.loop_init (constant_ice 10 25)
                   (constant_init_draws (1 / 2) 0) [mkV3 0 0 45] [mkV3 0 0 1])
                0 10 1 (mkPhoton 25 (mkV3 0 0 45) (mkV3 0 0 1) 0 0 0)
                eq_refl eq_refl eq_refl) as Hl1.
  cbv zeta in Hl1. cbn [ph_d_abs ph_r ph_v ph_t ph_t_layer_0 ph_t_layer_1] in Hl1.
  eexists. split; [exact Hl1|].
  cbn [ph_d_abs ph_r ph_v ph_t ph_t_layer_0 ph_t_layer_1].
  assert (Hm : Rmax 25 0 = 25).
  { unfold Rmax. destruct (Rle_dec 25 0); lra. }
  split; [|split; [|split]].
  - unfold cutoff_row. simpl cutoff_enabled.
    rewrite bool_decide_eq_false_2 by lra. rewrite Rmin_10_25, Hm. lra.
  - rewrite Rmin_10_25. lra.
  - rewrite Rmin_10_25. unfold vadd, vscale. cbn [vx vy vz].
    rewrite bool_decide_eq_true_2 by lra. lra.
  - destruct (elapsed_time_partition settings_no_cutoff (constant_ice 10 25)
                (constant_detector 1 100 100 100)
                (constant_init_draws (1 / 2) 0)
                (fun _ => constant_draws 1 (1 / 2) 0)
                [mkV3 0 0 45] [mkV3 0 0 1] 1 0 _
                (constant_ice_contract 10 25 ltac:(lra))
                (constant_ice_absorption_shape 10 25)
                (constant_detector_contract 1 100 100 100 ltac:(lra))
                eq_refl Hl1) as (_ & Hsum & _); [|exact Hsum].
    intros j phj Hj Hlj. destruct j as [|[|j]]; [| |lia].
    + simpl in Hlj. injection Hlj as <-. simpl.
      split; [lra|apply x_axis_cross_z_axis].
    + change (lane (Model.body settings_no_cutoff (constant_ice 10 25)
                      (constant_detector 1 100 100 100)
                      (constant_draws 1 (1 / 2) 0)
                      (Model.loop_init (constant_ice 10 25)
                         (constant_init_draws (1 / 2) 0)
                         [mkV3 0 0 45] [mkV3 0 0 1])) 0 = Some phj) in Hlj.
      rewrite Hl1 in Hlj. injection Hlj as <-.
      cbn [ph_v scat_u normal_theta_u normal_phi_u constant_draws].
      split; [lra|]. rewrite scatter_row_forward.
      assert (Hif : forall (b : bool) (x : V3), (if b then x else x) = x)
        by (by intros [] ?).
      rewrite Hif. apply x_axis_cross_z_axis.
Defined.

Lemma one_step_scenario_witness :
  exists (_r0 _v0 : list V3) (final : LoopVars),
    Model.tf_init_cascades settings_no_cutoff two_origins
      (constant_init_draws (1 / 2) 0) = Some (_r0, _v0) /\
    length _r0 = 4%nat /\ length _v0 = 4%nat /\
    (forall fuel : nat,
       (2 <= fuel)%nat ->
       Model.run settings_no_cutoff (constant_ice 10 5)
         (constant_detector 1 100 100 100) two_origins
         (constant_init_draws (1 / 2) 0)
         (fun _ => constant_draws 1 (1 / 2) 0) fuel
       = Some (1%nat, final)) /\
    shape_ok 4 final /\
    (forall (i : nat) (p0 dir0 : V3),
       _r0 !! i = Some p0 -> _v0 !! i = Some dir0 ->
       d_abs final !! i = Some 0 /\
       t final !! i = Some 5 /\
       r final !! i = Some (vadd p0 (vscale 5 dir0))).
Proof.
  apply (one_step_scenario settings_no_cutoff (constant_ice 10 5)
           (constant_detector 1 100 100 100)
           (fun _ _ => eq_refl) (fun _ _ => eq_refl) (fun _ _ _ => eq_refl)
           eq_refl two_origins (constant_init_draws (1 / 2) 0)
           (fun _ => constant_draws 1 (1 / 2) 0)).
  - simpl. lia.
  - reflexivity.
  - exists 2%nat. reflexivity.
Defined.

Lemma cutoff_freezes_witness :
  r (Model.body settings_cutoff (constant_ice 10 5)
       (constant_detector 1 100 100 100) (constant_draws 1 (1 / 2) 0)
       one_photon) !! 0%nat
  = Some (vadd (mkV3 0 0 0) (vscale (Rmin 10 (Rmax 5 0) * 1) (mkV3 0 0 1))).
Proof.
  destruct (cutoff_freezes settings_cutoff (constant_ice 10 5)
              (constant_detector 1 100 100 100) (constant_draws 1 (1 / 2) 0)
              one_photon 0 1 5 10 1 0 (mkV3 0 0 0) (mkV3 0 0 1)
              cutoff_enabled_1 eq_refl eq_refl eq_refl eq_refl eq_refl eq_refl)
    as (Hr & _).
  exact Hr.
Defined.

Lemma layer_attribution_witness :
  r (Model.body settings_no_cutoff (constant_ice 10 5)
       (constant_detector 1 100 100 100) (constant_draws 1 (1 / 2) 0)
       one_photon) !! 0%nat
  = Some (vadd (mkV3 0 0 0) (vscale (Rmin 10 (Rmax 5 0) * 1) (mkV3 0 0 1))).
Proof.
  destruct (layer_attribution settings_no_cutoff (constant_ice 10 5)
              (constant_detector 1 100 100 100) (constant_draws 1 (1 / 2) 0)
              one_photon 0 5 10 1 0 0 (mkV3 0 0 0) (mkV3 0 0 1)
              eq_refl eq_refl eq_refl eq_refl eq_refl eq_refl eq_refl)
    as (Hr & _).
  exact Hr.
Defined.

Lemma cascade_replication_witness :
  exists _r0 _v0 : list V3,
    Model.tf_init_cascades settings_no_cutoff two_origins
      (constant_init_draws (1 / 2) 0) = Some (_r0, _v0) /\
    length _r0 = 4%nat /\
    (forall p : V3, p ∈ _r0 -> p ∈ two_origins) /\
    (forall o : V3,
       o ∈ two_origins ->
       length (filter (fun p => p = o) _r0) = (4 / 2)%nat).
Proof.
  apply (cascade_replication settings_no_cutoff two_origins
           (constant_init_draws (1 / 2) 0)).
  - simpl. lia.
  - reflexivity.
  - exists 2%nat. reflexivity.
  - apply two_origins_NoDup.
Defined.

Lemma cascade_round_robin_witness :
  exists _r0 _v0 : list V3,
    Model.tf_init_cascades settings_no_cutoff two_origins
      (constant_init_draws (1 / 2) 0) = Some (_r0, _v0) /\
    length _r0 = 4%nat /\
    (forall i : nat,
       (i < 4)%nat -> _r0 !! i = two_origins !! (i mod 2)%nat) /\
    (forall i j : nat,
       (i < 4)%nat -> (j < 4)%nat -> (i mod 2 = j mod 2)%nat ->
       _r0 !! i = _r0 !! j) /\
    (forall i : nat,
       (1 < 2)%nat -> (S i < 4)%nat -> (S i mod 2)%nat <> (i mod 2)%nat).
Proof.
  apply (cascade_round_robin settings_no_cutoff two_origins
           (constant_init_draws (1 / 2) 0)).
  - simpl. lia.
  - reflexivity.
  - exists 2%nat. reflexivity.
Defined.

End Runs.

(** ** Sampled directions and the scattering angle *)

Section Directions.

Context {Rnd : Type}.
Variable settings : Settings.

Lemma direction_row_unit (theta_u phi_u : R) :
  norm_sq (direction_row theta_u phi_u) = 1.
Proof.
  unfold norm_sq, direction_row; simpl.
  pose proof (sin2_cos2 (theta_u * PI)) as Ht.
  pose proof (sin2_cos2 (phi_u * 2 * PI)) as Hp.
  unfold Rsqr in Ht, Hp.
  set (st := sin (theta_u * PI)) in *. set (ct := cos (theta_u * PI)) in *.
  set (sp := sin (phi_u * 2 * PI)) in *. set (cp := cos (phi_u * 2 * PI)) in *.
  nsatz.
Qed.

(** X1: the initial directions built by [tf_init_cascades] are one unit
    vector per photon of the batch, whatever the uniform draws are. *)
Theorem initial_directions_unit (r_cascades : list V3) (dr : InitDraws Rnd)
    (_r0 _v0 : list V3) :
  Model.tf_init_cascades settings r_cascades dr = Some (_r0, _v0) ->
  length _v0 = BATCH_SIZE settings /\
  forall (i : nat) (dir : V3), _v0 !! i = Some dir -> norm dir = 1.
Proof.
  unfold Model.tf_init_cascades. intros H.
  destruct (int_div _ _) as [k|]; [|done]. simpl in H.
  injection H as _ <-. split; [apply length_sampled_directions|].
  intros i dir Hi.
  assert (Hlt : (i < BATCH_SIZE settings)%nat).
  { apply lookup_lt_Some in Hi. by rewrite length_sampled_directions in Hi. }
  rewrite lookup_sampled_directions in Hi by done.
  injection Hi as <-. apply norm_unit_iff, direction_row_unit.
Qed.

(** X2: [tf_init_cascades] fails exactly when [CASCADES_PER_STEP] is 0.
    Otherwise, for [C] origins, it returns [B - B mod C] positions and [B]
    directions: the two batches have the same size exactly when [C] divides
    [B]. *)
Theorem init_cascades_shapes (r_cascades : list V3) (dr : InitDraws Rnd) :
  length r_cascades = CASCADES_PER_STEP settings ->
  (Model.tf_init_cascades settings r_cascades dr = None <->
   CASCADES_PER_STEP settings = 0%nat) /\
  forall _r0 _v0 : list V3,
    Model.tf_init_cascades settings r_cascades dr = Some (_r0, _v0) ->
    length _r0
    = (BATCH_SIZE settings
       - BATCH_SIZE settings mod CASCADES_PER_STEP settings)%nat /\
    length _v0 = BATCH_SIZE settings /\
    (length _r0 = length _v0 <->
     (CASCADES_PER_STEP settings | BATCH_SIZE settings)%nat).
Proof.
  intros Hlen. unfold Model.tf_init_cascades, int_div.
  destruct (decide (CASCADES_PER_STEP settings = 0%nat)) as [Hc|Hc]; simpl.
  - split; [done|]. intros ? ? [=].
  - split; [split; [done|intros; done]|].
    intros _r0 _v0 [= <- <-].
    rewrite length_tf_tile, length_sampled_directions, Hlen.
    pose proof (Nat.div_mod_eq (BATCH_SIZE settings)
                  (CASCADES_PER_STEP settings)) as Hdm.
    pose proof (Nat.Lcm0.mod_divide (BATCH_SIZE settings)
                  (CASCADES_PER_STEP settings)) as Hdiv.
    split; [lia|]. split; [done|].
    rewrite <- Hdiv. split; lia.
Qed.

(** X3: every row of [tf_sample_normal_vectors] whose cross product does
    not vanish is a unit vector perpendicular to the row of [v] it was
    sampled for; [v] itself need not be normalized. *)
Theorem normal_vectors_unit_perpendicular (dr : Draws Rnd) (vs : list V3)
    (i : nat) (dir : V3) :
  vs !! i = Some dir ->
  cross (direction_row (normal_theta_u dr i) (normal_phi_u dr i)) dir
    <> vzero ->
  length (Model.tf_sample_normal_vectors dr vs) = length vs /\
  exists n : V3,
    Model.tf_sample_normal_vectors dr vs !! i = Some n /\
    norm n = 1 /\ vdot n dir = 0.
Proof.
  intros Hv Hne. split.
  - unfold Model.tf_sample_normal_vectors.
    rewrite length_map, length_zip_with, length_sampled_directions. lia.
  - eexists. split; [by apply lookup_tf_sample_normal_vectors|].
    destruct (normal_row_unit _ _ _ Hne) as (Hn & Ho).
    split; [by apply norm_unit_iff|done].
Qed.

Lemma rotate_row_dot (w s : R) (n dir : V3) :
  vdot n dir = 0 -> norm_sq n = 1 -> norm_sq dir = 1 ->
  vdot (rotate_row (mkQuaternion w (vx n * s) (vy n * s) (vz n * s)) dir) dir
  = 1 - 2 * (s * s).
Proof.
  destruct n as [nx ny nz], dir as [x y z].
  unfold vdot, norm_sq, rotate_row, q_xyz, cross, vadd, vscale; simpl.
  intros Ho Hn Hd. nsatz.
Qed.

(** X4: [tf_scatter] returns one direction per incoming direction and
    deflects a unit direction by the sampled angle: the scalar product of
    the scattered and the incoming direction is the sampled
    [cosT = 2 * u ** (1/19) - 1], which lies in [[-1, 1]]. *)
Theorem scatter_angle (dr : Draws Rnd) (vs : list V3) (i : nat) (dir : V3) :
  vs !! i = Some dir ->
  norm dir = 1 ->
  0 <= scat_u dr i <= 1 ->
  cross (direction_row (normal_theta_u dr i) (normal_phi_u dr i)) dir
    <> vzero ->
  length (Model.tf_scatter dr vs) = length vs /\
  exists out : V3,
    Model.tf_scatter dr vs !! i = Some out /\
    vdot out dir = 2 * tf_pow (scat_u dr i) (1 / 19) - 1 /\
    -1 <= vdot out dir <= 1.
Proof.
  intros Hv Hd Hu Hne. split; [apply length_tf_scatter|].
  eexists. split; [by apply lookup_tf_scatter|].
  apply norm_unit_iff in Hd.
  destruct (normal_row_unit _ _ _ Hne) as (Hn & Ho).
  pose proof (tf_pow_range (scat_u dr i) (1 / 19) Hu ltac:(lra)) as Hp.
  unfold scatter_row, scatter_quaternion.
  rewrite rotate_row_dot by done.
  rewrite sqrt_sqrt by lra. lra.
Qed.

End Directions.

(** ** More on one iteration *)

Section Step.

Context {Rnd : Type}.
Variable settings : Settings.
Variable _ice : Ice Rnd.
Variable _detector : Detector.

Local Abbreviation body := (Model.body settings _ice _detector).
Local Abbreviation scatter_distances := (Model.scatter_distances _ice).
Local Abbreviation hit_fractions := (Model.hit_fractions _ice _detector).

(** X5: [body] keeps the batch: when the medium and the detector return one
    value per photon, the six loop variables it returns hold as many photons
    as the six it was given; no photon is added or dropped. *)
Theorem body_keeps_batch (n : nat) (dr : Draws Rnd) (s : LoopVars) :
  ice_contract _ice ->
  detector_contract _detector ->
  shape_ok n s ->
  shape_ok n (body dr s) /\
  forall i : nat, is_Some (lane s i) <-> is_Some (lane (body dr s) i).
Proof.
  intros Hice Hdet Hs.
  pose proof (body_shape settings _ice _detector n dr s Hice Hdet Hs) as Hs'.
  split; [done|]. intros i. split; intros [ph Hl].
  - apply (shape_lane n); [done|]. exact (lane_lt n i s ph Hs Hl).
  - apply (shape_lane n); [done|]. exact (lane_lt n i (body dr s) ph Hs' Hl).
Qed.

(** X6: a photon for which the detector reports a hit ([h < 1]) stops inside
    the step: it leaves the iteration with [d_abs = 0], at the position
    [p + d * h * direction], and its direction is not scattered; this holds
    with and without a cutoff radius. *)
Theorem hit_photon_stops (dr : Draws Rnd) (s : LoopVars) (i : nat)
    (a ds h : R) (p dir : V3) :
  d_abs s !! i = Some a ->
  r s !! i = Some p ->
  v s !! i = Some dir ->
  scatter_distances dr s !! i = Some ds ->
  hit_fractions dr s !! i = Some h ->
  h < 1 ->
  d_abs (body dr s) !! i = Some 0 /\
  r (body dr s) !! i
  = Some (vadd p (vscale (Rmin ds (Rmax a 0) * h) dir)) /\
  v (body dr s) !! i = Some dir.
Proof.
  intros Ha Hr Hv Hds Hh Hlt.
  pose proof (lookup_body_d_abs settings _ice _detector dr s i a ds h p dir
                Ha Hds Hh Hr Hv) as Hd.
  pose proof (lookup_body_v settings _ice _detector dr s i a ds h p dir
                Ha Hds Hh Hr Hv) as Hv'.
  cbv zeta in Hd, Hv'.
  rewrite (bool_decide_eq_true_2 (h < 1)) in Hd, Hv' by done.
  rewrite cutoff_row_0 in Hd, Hv'.
  rewrite (bool_decide_eq_false_2 (0 > 0)) in Hv' by lra.
  split; [done|]. split; [|done]. by eapply lookup_body_r.
Qed.

(** X7: a photon whose remaining absorption distance does not exceed the
    sampled scatter distance only propagates to absorption: the step is the
    clamped [d_abs] itself, and the photon leaves the iteration with
    [d_abs = 0] and its direction not scattered. *)
Theorem absorbed_photon_stops (dr : Draws Rnd) (s : LoopVars) (i : nat)
    (a ds h tm : R) (p dir : V3) :
  d_abs s !! i = Some a ->
  r s !! i = Some p ->
  v s !! i = Some dir ->
  t s !! i = Some tm ->
  scatter_distances dr s !! i = Some ds ->
  hit_fractions dr s !! i = Some h ->
  Rmax a 0 <= ds ->
  d_abs (body dr s) !! i = Some 0 /\
  r (body dr s) !! i = Some (vadd p (vscale (Rmax a 0 * h) dir)) /\
  t (body dr s) !! i = Some (tm + Rmax a 0 * h) /\
  v (body dr s) !! i = Some dir.
Proof.
  intros Ha Hr Hv Ht Hds Hh Hle.
  pose proof (lookup_body_d_abs settings _ice _detector dr s i a ds h p dir
                Ha Hds Hh Hr Hv) as Hd.
  pose proof (lookup_body_v settings _ice _detector dr s i a ds h p dir
                Ha Hds Hh Hr Hv) as Hv'.
  pose proof (lookup_body_r settings _ice _detector dr s i a ds h p dir
                Ha Hds Hh Hr Hv) as Hr'.
  pose proof (lookup_body_t settings _ice _detector dr s i a ds h
                Ha Hds Hh tm Ht) as Ht'.
  cbv zeta in Hd, Hv', Hr', Ht'.
  assert (Hmin : Rmin ds (Rmax a 0) = Rmax a 0).
  { unfold Rmin. destruct (Rle_dec ds (Rmax a 0)); lra. }
  rewrite Hmin in Hd, Hv', Hr', Ht'.
  assert (Hz : (if bool_decide (h < 1) then 0 else Rmax a 0 - Rmax a 0) = 0).
  { destruct (bool_decide (h < 1)); lra. }
  rewrite Hz, cutoff_row_0 in Hd, Hv'.
  rewrite (bool_decide_eq_false_2 (0 > 0)) in Hv' by lra.
  done.
Qed.

(** X8: one iteration keeps the directions normalized: a photon that enters
    with a unit direction leaves with a unit direction, whether it is
    scattered or not, when its scattering draw lies in [[0, 1]] and the
    sampled auxiliary direction is not parallel to its direction. *)
Theorem direction_stays_unit (dr : Draws Rnd) (s : LoopVars) (i : nat)
    (a ds h : R) (p dir : V3) :
  d_abs s !! i = Some a ->
  r s !! i = Some p ->
  v s !! i = Some dir ->
  scatter_distances dr s !! i = Some ds ->
  hit_fractions dr s !! i = Some h ->
  norm dir = 1 ->
  0 <= scat_u dr i <= 1 ->
  cross (direction_row (normal_theta_u dr i) (normal_phi_u dr i)) dir
    <> vzero ->
  exists dir' : V3,
    v (body dr s) !! i = Some dir' /\ norm dir' = 1.
Proof.
  intros Ha Hr Hv Hds Hh Hd Hu Hne.
  eexists. split; [by eapply lookup_body_v|].
  cbv zeta. case_bool_decide; [|done]. by apply scatter_row_unit.
Qed.

Lemma norm_vscale (k : R) (a : V3) : 0 <= k -> norm (vscale k a) = k * norm a.
Proof.
  intros Hk. unfold norm.
  replace (norm_sq (vscale k a)) with (k * k * norm_sq a)
    by (unfold norm_sq, vscale; simpl; ring).
  rewrite sqrt_mult by (try apply norm_sq_nonneg; nra).
  f_equal. replace (k * k) with (Rsqr k) by (unfold Rsqr; ring).
  by apply sqrt_Rsqr.
Qed.

(** X9: the logged travel time is the distance travelled: for a photon with
    a unit direction, a non-negative scatter distance and a non-negative hit
    fraction, the distance between the positions before and after one
    iteration equals the increase of [t] in that iteration. *)
Theorem step_length_is_time (dr : Draws Rnd) (s : LoopVars) (i : nat)
    (a ds h tm : R) (p dir : V3) :
  d_abs s !! i = Some a ->
  r s !! i = Some p ->
  v s !! i = Some dir ->
  t s !! i = Some tm ->
  scatter_distances dr s !! i = Some ds ->
  hit_fractions dr s !! i = Some h ->
  norm dir = 1 ->
  0 <= ds ->
  0 <= h ->
  exists (p' : V3) (tm' : R),
    r (body dr s) !! i = Some p' /\
    t (body dr s) !! i = Some tm' /\
    norm (vsub p' p) = tm' - tm.
Proof.
  intros Ha Hr Hv Ht Hds Hh Hd Hs0 Hh0.
  eexists _, _. split; [by eapply lookup_body_r|].
  split; [by eapply lookup_body_t|].
  cbv zeta. set (k := Rmin ds (Rmax a 0) * h).
  assert (Hk : 0 <= k).
  { unfold k. apply Rmult_le_pos; [|done]. unfold Rmin, Rmax.
    destruct (Rle_dec a 0); destruct (Rle_dec ds _); lra. }
  replace (vsub (vadd p (vscale k dir)) p) with (vscale k dir).
  - rewrite norm_vscale, Hd by done. lra.
  - destruct p as [x y z]. unfold vsub, vadd, vscale; simpl. f_equal; ring.
Qed.

(** X10: the lanes do not interact: if two batches, under possibly different
    collaborators' answers elsewhere, agree on photon [i], on its scatter
    distance, on its hit fraction and on its draws, then [body] returns the
    same photon [i] for both. *)
Theorem lanes_independent (dr1 dr2 : Draws Rnd) (s1 s2 : LoopVars)
    (i j : nat) (ph : Photon) (ds h : R) :
  lane s1 i = Some ph ->
  lane s2 j = Some ph ->
  scatter_distances dr1 s1 !! i = Some ds ->
  scatter_distances dr2 s2 !! j = Some ds ->
  hit_fractions dr1 s1 !! i = Some h ->
  hit_fractions dr2 s2 !! j = Some h ->
  scat_u dr1 i = scat_u dr2 j ->
  normal_theta_u dr1 i = normal_theta_u dr2 j ->
  normal_phi_u dr1 i = normal_phi_u dr2 j ->
  is_Some (lane (body dr1 s1) i) /\
  lane (body dr1 s1) i = lane (body dr2 s2) j.
Proof.
  intros Hl1 Hl2 Hd1 Hd2 Hh1 Hh2 Hu Ht Hp.
  rewrite (lane_body settings _ice _detector dr1 s1 i ds h ph Hl1 Hd1 Hh1).
  rewrite (lane_body settings _ice _detector dr2 s2 j ds h ph Hl2 Hd2 Hh2).
  cbv zeta. rewrite Hu, Ht, Hp. split; [by eexists|done].
Qed.

End Step.

(** ** More on the loop *)

Section Propagation.

Context {Rnd : Type}.
Variable settings : Settings.
Variable _ice : Ice Rnd.
Variable _detector : Detector.

Local Abbreviation body := (Model.body settings _ice _detector).
Local Abbreviation iterations := (Model.iterations settings _ice _detector).
Local Abbreviation tf_propagate :=
  (Model.tf_propagate settings _ice _detector).
Local Abbreviation scatter_distances := (Model.scatter_distances _ice).
Local Abbreviation hit_fractions := (Model.hit_fractions _ice _detector).

Lemma tf_while_loop_guard_history (draws : nat -> Draws Rnd)
    (fuel k k' : nat) (s s' : LoopVars) :
  tf_while_loop Model.cond (fun j => body (draws j)) fuel k s = Some (k', s') ->
  forall j : nat, (j < k' - k)%nat -> Model.cond (iterations draws k j s) = true.
Proof.
  revert k s. induction fuel as [|fuel IH]; intros k s; simpl; [done|].
  destruct (Model.cond s) eqn:Hc.
  - intros H j Hj.
    pose proof (tf_while_loop_iterations settings _ice _detector draws fuel
                  (S k) k' (body (draws k) s) s' H) as (Hle & _).
    destruct j as [|j]; [done|]. simpl. apply (IH _ _ H). lia.
  - intros [= <- <-] j Hj. lia.
Qed.


(** X11: when [tf_propagate] returns after [k] iterations, the result is
    the state reached by [k] evaluations of [body], no photon of it has a
    positive [d_abs], and before each of the [k] iterations some photon
    still had one: the loop runs exactly as long as a photon is active. *)
Theorem propagate_exit (dr : InitDraws Rnd) (draws : nat -> Draws Rnd)
    (_r0 _v0 : list V3) (fuel k : nat) (final : LoopVars) :
  tf_propagate dr draws _r0 _v0 fuel = Some (k, final) ->
  let s0 := Model.loop_init _ice dr _r0 _v0 in
  final = iterations draws 0 k s0 /\
  Forall (fun x => x <= 0) (d_abs final) /\
  forall j : nat,
    (j < k)%nat -> Exists (fun x => 0 < x) (d_abs (iterations draws 0 j s0)).
Proof.
  intros H s0. unfold Model.tf_propagate in H. fold s0 in H.
  pose proof (tf_while_loop_iterations settings _ice _detector draws fuel 0 k
                s0 final H) as (_ & Hfin & Hstop).
  rewrite Nat.sub_0_r in Hfin. split; [done|]. split.
  - apply Forall_forall. intros x Hx.
    destruct (Rle_dec x 0) as [|Hpos]; [done|]. exfalso.
    apply not_true_iff_false in Hstop. apply Hstop, cond_true_iff.
    apply Exists_exists. exists x. split; [done|lra].
  - intros j Hj. apply cond_true_iff.
    apply (tf_while_loop_guard_history draws fuel 0 k s0 final H). lia.
Qed.

(** What one evaluation of [body] does to the budget of one photon. *)
Lemma step_budget (dr : Draws Rnd) (s : LoopVars) (i : nat) (ds h : R)
    (ph : Photon) :
  lane s i = Some ph ->
  scatter_distances dr s !! i = Some ds ->
  hit_fractions dr s !! i = Some h ->
  0 <= ph_d_abs ph -> 0 < ds -> 0 <= h <= 1 ->
  exists ph' : Photon,
    lane (body dr s) i = Some ph' /\
    0 <= ph_d_abs ph' /\
    ph_t ph <= ph_t ph' /\
    ph_t ph' + ph_d_abs ph' <= ph_t ph + ph_d_abs ph /\
    (cutoff_enabled (CUTOFF_RADIUS settings) = None -> h = 1 ->
     ph_t ph' + ph_d_abs ph' = ph_t ph + ph_d_abs ph).
Proof.
  intros Hl Hds Hh Ha Hpos Hrange. eexists. split; [by eapply lane_body|].
  simpl.
  assert (Hm : Rmax (ph_d_abs ph) 0 = ph_d_abs ph).
  { unfold Rmax. destruct (Rle_dec (ph_d_abs ph) 0); lra. }
  rewrite Hm. set (a := ph_d_abs ph) in *.
  assert (Hd : 0 <= Rmin ds a <= a).
  { unfold Rmin. destruct (Rle_dec ds a); lra. }
  set (d := Rmin ds a) in *.
  assert (Hdh : 0 <= d * h <= d) by nra.
  split; [|split; [lra|split]].
  - destruct (cutoff_row_cases settings _detector
                (vadd (ph_r ph) (vscale (d * h) (ph_v ph)))
                (if bool_decide (h < 1) then 0 else a - d)) as [-> | ->];
      [case_bool_decide; lra|lra].
  - destruct (cutoff_row_cases settings _detector
                (vadd (ph_r ph) (vscale (d * h) (ph_v ph)))
                (if bool_decide (h < 1) then 0 else a - d)) as [-> | ->];
      [case_bool_decide; nra|lra].
  - intros Hc ->. unfold cutoff_row. rewrite Hc.
    rewrite bool_decide_eq_false_2 by lra. lra.
Qed.

(** X12: a photon never travels farther than its absorption distance: under
    the contracts of the medium and the detector, for a photon that starts
    with a non-negative [d_abs], after any number of iterations [d_abs] is
    still non-negative, [t] has not decreased, and the travel time gained
    so far plus the remaining [d_abs] does not exceed the initial
    [d_abs]. *)
Theorem travel_within_budget (n : nat) (draws : nat -> Draws Rnd)
    (s : LoopVars) (i : nat) (ph0 : Photon) :
  ice_contract _ice ->
  detector_contract _detector ->
  shape_ok n s ->
  lane s i = Some ph0 ->
  0 <= ph_d_abs ph0 ->
  forall k m : nat,
    exists ph : Photon,
      lane (iterations draws k m s) i = Some ph /\
      0 <= ph_d_abs ph /\
      ph_t ph0 <= ph_t ph /\
      (ph_t ph - ph_t ph0) + ph_d_abs ph <= ph_d_abs ph0.
Proof.
  intros Hice Hdet Hs Hl Ha k m. revert k s ph0 Hs Hl Ha.
  induction m as [|m IH]; intros k s ph0 Hs Hl Ha; simpl.
  - exists ph0. split; [done|]. lra.
  - destruct (contract_lane _ice _detector n i (draws k) s Hice Hdet
                Hs (lane_lt n i s ph0 Hs Hl))
      as (ds & h & Hds & Hpos & Hh & Hrange).
    destruct (step_budget (draws k) s i ds h ph0 Hl Hds Hh Ha Hpos Hrange)
      as (ph1 & Hl1 & Ha1 & Ht1 & Hb1 & _).
    destruct (IH (S k) (body (draws k) s) ph1
                (body_shape settings _ice _detector n (draws k) s Hice Hdet Hs)
                Hl1 Ha1) as (ph & Hlm & Ham & Htm & Hbm).
    exists ph. split; [done|]. lra.
Qed.

(** Without hits and without a cutoff radius the budget of a photon is
    conserved: what [t] gains, [d_abs] loses. *)
Lemma budget_conserved (n : nat) (draws : nat -> Draws Rnd) (i : nat) :
  ice_contract _ice ->
  (forall (rs : list V3) (ds : list R) (vs : list V3),
     tf_check_for_hits _detector rs ds vs = replicate (length rs) 1) ->
  cutoff_enabled (CUTOFF_RADIUS settings) = None ->
  forall (m k : nat) (s : LoopVars) (ph0 : Photon),
    shape_ok n s ->
    lane s i = Some ph0 ->
    0 <= ph_d_abs ph0 ->
    exists ph : Photon,
      lane (iterations draws k m s) i = Some ph /\
      0 <= ph_d_abs ph /\
      ph_t ph + ph_d_abs ph = ph_t ph0 + ph_d_abs ph0.
Proof.
  intros Hice Hhit Hcut.
  assert (Hdet : detector_contract _detector).
  { intros rs ds vs _ _. rewrite Hhit, length_replicate.
    split; [done|]. apply Forall_replicate. lra. }
  induction m as [|m IH]; intros k s ph0 Hs Hl Ha; simpl.
  - exists ph0. split; [done|]. lra.
  - pose proof (lane_lt n i s ph0 Hs Hl) as Hi.
    destruct (contract_lane _ice _detector n i (draws k) s Hice Hdet Hs Hi)
      as (ds & h & Hds & Hpos & Hh & Hrange).
    assert (Hh1 : h = 1).
    { unfold Model.hit_fractions in Hh. rewrite Hhit in Hh.
      by apply lookup_replicate in Hh as [-> _]. }
    destruct (step_budget (draws k) s i ds h ph0 Hl Hds Hh Ha Hpos Hrange)
      as (ph1 & Hl1 & Ha1 & _ & _ & Heq).
    specialize (Heq Hcut Hh1).
    destruct (IH (S k) (body (draws k) s) ph1
                (body_shape settings _ice _detector n (draws k) s Hice Hdet Hs)
                Hl1 Ha1) as (ph & Hlm & Ham & Hbm).
    exists ph. split; [done|]. lra.
Qed.

(** X13: without hits and without a cutoff radius, every photon arrives
    after exactly its absorption distance: when the detector always returns
    1 and [tf_propagate] returns, the arrival time of a photon is the
    non-negative absorption distance sampled for it at the start, and its
    [d_abs] is 0, whatever the scatter distances and the number of
    iterations were. *)
Theorem arrival_time_without_hits (dr : InitDraws Rnd)
    (draws : nat -> Draws Rnd) (_r0 _v0 : list V3) (fuel k : nat)
    (final : LoopVars) (i : nat) (a0 : R) :
  ice_contract _ice ->
  absorption_shape _ice ->
  (forall (rs : list V3) (ds : list R) (vs : list V3),
     tf_check_for_hits _detector rs ds vs = replicate (length rs) 1) ->
  cutoff_enabled (CUTOFF_RADIUS settings) = None ->
  length _v0 = length _r0 ->
  tf_sample_absorption _ice (abs_rnd dr) _r0 !! i = Some a0 ->
  0 <= a0 ->
  tf_propagate dr draws _r0 _v0 fuel = Some (k, final) ->
  t final !! i = Some a0 /\ d_abs final !! i = Some 0.
Proof.
  intros Hice Habs Hhit Hcut Hlen Ha0 Hpos Hrun.
  unfold Model.tf_propagate in Hrun.
  set (s0 := Model.loop_init _ice dr _r0 _v0) in *.
  pose proof (tf_while_loop_iterations settings _ice _detector draws fuel 0 k
                s0 final Hrun) as (_ & Hfin & Hstop).
  rewrite Nat.sub_0_r in Hfin.
  assert (Hs0 : shape_ok (length _r0) s0) by by apply loop_init_shape.
  assert (Hi : (i < length _r0)%nat).
  { apply lookup_lt_Some in Ha0. by rewrite Habs in Ha0. }
  destruct (shape_lane _ i s0 Hs0 Hi) as [ph0 Hl0].
  pose proof (lane_lookups s0 i ph0 Hl0) as (Hd0 & _ & _ & Ht0 & _).
  assert (Hd0' : ph_d_abs ph0 = a0).
  { unfold s0, Model.loop_init in Hd0; simpl in Hd0. congruence. }
  assert (Ht0' : ph_t ph0 = 0).
  { unfold s0, Model.loop_init in Ht0; simpl in Ht0.
    symmetry. by apply lookup_zeros_inv in Ht0. }
  destruct (budget_conserved (length _r0) draws i Hice Hhit Hcut k 0%nat s0 ph0
              Hs0 Hl0 ltac:(lra)) as (ph & Hl & Hge & Hsum).
  rewrite <- Hfin in Hl.
  pose proof (lane_lookups final i ph Hl) as (Hd & _ & _ & Ht & _).
  assert (Hle : ph_d_abs ph <= 0).
  { destruct (Rle_dec (ph_d_abs ph) 0) as [|Hgt]; [done|]. exfalso.
    apply not_true_iff_false in Hstop. apply Hstop, cond_true_iff.
    apply Exists_exists. exists (ph_d_abs ph).
    split; [by eapply list_elem_of_lookup_2|lra]. }
  assert (Hz : ph_d_abs ph = 0) by lra.
  rewrite Ht, Hd. split; f_equal; lra.
Qed.




End Propagation.

(** ** Cutoff, idle runs and displacement *)

Section Reach.

Context {Rnd : Type}.
Variable settings : Settings.
Variable _ice : Ice Rnd.
Variable _detector : Detector.

Local Abbreviation body := (Model.body settings _ice _detector).
Local Abbreviation iterations := (Model.iterations settings _ice _detector).
Local Abbreviation tf_propagate :=
  (Model.tf_propagate settings _ice _detector).
Local Abbreviation scatter_distances := (Model.scatter_distances _ice).
Local Abbreviation hit_fractions := (Model.hit_fractions _ice _detector).

(** X15: with a cutoff radius [c] configured, a photon that is still active
    after an iteration lies strictly inside the cutoff sphere: a positive
    returned [d_abs] implies that the returned position is closer than
    [c * norm(l_x, l_y, l_z) / 2] to the centre of the detector. *)
Theorem active_inside_cutoff (dr : Draws Rnd) (s : LoopVars) (i : nat)
    (c a ds h a' : R) (p dir p' : V3) :
  cutoff_enabled (CUTOFF_RADIUS settings) = Some c ->
  d_abs s !! i = Some a ->
  r s !! i = Some p ->
  v s !! i = Some dir ->
  scatter_distances dr s !! i = Some ds ->
  hit_fractions dr s !! i = Some h ->
  d_abs (body dr s) !! i = Some a' ->
  r (body dr s) !! i = Some p' ->
  0 < a' ->
  norm (vsub p' (mkV3 (_l_x _detector / 2) (_l_y _detector / 2)
                      (_l_z _detector / 2)))
  < c * norm (mkV3 (_l_x _detector) (_l_y _detector) (_l_z _detector)) / 2.
Proof.
  intros Hc Ha Hr Hv Hds Hh Ha' Hr' Hpos.
  rewrite (lookup_body_d_abs settings _ice _detector dr s i a ds h p dir
             Ha Hds Hh Hr Hv) in Ha'.
  rewrite (lookup_body_r settings _ice _detector dr s i a ds h p dir
             Ha Hds Hh Hr Hv) in Hr'.
  cbv zeta in Ha', Hr'. injection Hr' as <-. injection Ha' as Ha'.
  unfold cutoff_row in Ha'. rewrite Hc in Ha'.
  unfold Model.inside_cutoff in Ha'.
  case_bool_decide as Hin; [done|]. lra.
Qed.

(** X16: on a well-shaped initial batch the loop does nothing exactly when
    no photon starts with a positive absorption distance (in particular for
    an empty batch): [tf_propagate] then returns the initial loop variables
    after 0 iterations, and it returns after 0 iterations in no other
    case. *)
Theorem propagate_idle (dr : InitDraws Rnd) (draws : nat -> Draws Rnd)
    (_r0 _v0 : list V3) (fuel : nat) :
  (0 < fuel)%nat ->
  absorption_shape _ice ->
  length _v0 = length _r0 ->
  let s0 := Model.loop_init _ice dr _r0 _v0 in
  shape_ok (length _r0) s0 /\
  (Forall (fun x => x <= 0) (tf_sample_absorption _ice (abs_rnd dr) _r0) <->
   tf_propagate dr draws _r0 _v0 fuel = Some (0%nat, s0)) /\
  (forall final : LoopVars,
     tf_propagate dr draws _r0 _v0 fuel = Some (0%nat, final) ->
     final = s0).
Proof.
  intros Hf Habs Hlen s0. destruct fuel as [|fuel]; [lia|].
  split; [by apply loop_init_shape|].
  assert (Hret : forall final : LoopVars,
             tf_propagate dr draws _r0 _v0 (S fuel) = Some (0%nat, final) ->
             final = s0 /\
             Forall (fun x => x <= 0)
                    (tf_sample_absorption _ice (abs_rnd dr) _r0)).
  { intros final Hrun. unfold Model.tf_propagate in Hrun. fold s0 in Hrun.
    pose proof (tf_while_loop_iterations settings _ice _detector draws
                  (S fuel) 0 0 s0 final Hrun) as (_ & Hfin & Hstop).
    simpl in Hfin. subst final. split; [done|].
    apply Forall_forall. intros x Hx.
    destruct (Rle_dec x 0) as [|Hpos]; [done|]. exfalso.
    apply not_true_iff_false in Hstop. apply Hstop, cond_true_iff.
    apply Exists_exists. exists x. split; [done|lra]. }
  split; [split|].
  - intros Hall. unfold Model.tf_propagate. fold s0. simpl.
    assert (Hc : Model.cond s0 = false).
    { apply not_true_iff_false. rewrite cond_true_iff. intros Hex.
      apply Exists_exists in Hex as (x & Hx & Hpos).
      apply (proj1 (Forall_forall _ _) Hall) in Hx. simpl in Hx. lra. }
    by rewrite Hc.
  - intros Hrun. by apply (Hret s0).
  - intros final Hrun. by apply (Hret final).
Qed.

Lemma cauchy_schwarz (a b : V3) : vdot a b <= norm a * norm b.
Proof.
  assert (Ha : 0 <= norm a) by apply sqrt_pos.
  assert (Hb : 0 <= norm b) by apply sqrt_pos.
  assert (Ha2 : norm a * norm a = norm_sq a).
  { apply sqrt_sqrt, norm_sq_nonneg. }
  assert (Hb2 : norm b * norm b = norm_sq b).
  { apply sqrt_sqrt, norm_sq_nonneg. }
  assert (Hl : vdot a b * vdot a b + norm_sq (cross a b)
               = norm_sq a * norm_sq b).
  { unfold vdot, norm_sq, cross; simpl. ring. }
  pose proof (norm_sq_nonneg (cross a b)) as Hc.
  assert (Hsq : vdot a b * vdot a b <= (norm a * norm b) * (norm a * norm b)).
  { replace (norm a * norm b * (norm a * norm b))
      with ((norm a * norm a) * (norm b * norm b)) by ring.
    rewrite Ha2, Hb2. lra. }
  assert (Hab : 0 <= norm a * norm b) by by apply Rmult_le_pos.
  nra.
Qed.

Lemma norm_triangle (a b : V3) : norm (vadd a b) <= norm a + norm b.
Proof.
  assert (Ha : 0 <= norm a) by apply sqrt_pos.
  assert (Hb : 0 <= norm b) by apply sqrt_pos.
  assert (Ha2 : norm a * norm a = norm_sq a).
  { apply sqrt_sqrt, norm_sq_nonneg. }
  assert (Hb2 : norm b * norm b = norm_sq b).
  { apply sqrt_sqrt, norm_sq_nonneg. }
  pose proof (cauchy_schwarz a b) as Hcs.
  assert (Hsum : norm_sq (vadd a b)
                 <= (norm a + norm b) * (norm a + norm b)).
  { replace (norm_sq (vadd a b))
      with (norm_sq a + 2 * vdot a b + norm_sq b)
      by (unfold norm_sq, vdot, vadd; simpl; ring).
    nra. }
  unfold norm at 1.
  rewrite <- (sqrt_square (norm a + norm b)) by lra.
  by apply sqrt_le_1_alt.
Qed.

Lemma vsub_split (a b c : V3) : vsub a c = vadd (vsub a b) (vsub b c).
Proof. unfold vsub, vadd; simpl. f_equal; ring. Qed.

(** One evaluation of [body] moves a photon with a unit direction by
    exactly the time it logs, and leaves it with a unit direction. *)
Lemma step_displacement (dr : Draws Rnd) (s : LoopVars) (i : nat) (ds h : R)
    (ph : Photon) :
  lane s i = Some ph ->
  scatter_distances dr s !! i = Some ds ->
  hit_fractions dr s !! i = Some h ->
  0 < ds -> 0 <= h ->
  norm (ph_v ph) = 1 ->
  0 <= scat_u dr i <= 1 ->
  cross (direction_row (normal_theta_u dr i) (normal_phi_u dr i)) (ph_v ph)
    <> vzero ->
  exists ph' : Photon,
    lane (body dr s) i = Some ph' /\
    norm (ph_v ph') = 1 /\
    norm (vsub (ph_r ph') (ph_r ph)) = ph_t ph' - ph_t ph.
Proof.
  intros Hl Hds Hh Hpos Hh0 Hunit Hu Hne.
  eexists. split; [by eapply lane_body|]. simpl. split.
  - case_bool_decide; [|done]. by apply scatter_row_unit.
  - set (k := Rmin ds (Rmax (ph_d_abs ph) 0) * h).
    assert (Hk : 0 <= k).
    { unfold k. apply Rmult_le_pos; [|done].
      pose proof (Rmax_r (ph_d_abs ph) 0).
      unfold Rmin. destruct (Rle_dec ds _); lra. }
    replace (vsub (vadd (ph_r ph) (vscale k (ph_v ph))) (ph_r ph))
      with (vscale k (ph_v ph)).
    + rewrite norm_vscale, Hunit by done. lra.
    + destruct (ph_r ph) as [x y z]. unfold vsub, vadd, vscale; simpl.
      f_equal; ring.
Qed.

(** X17: a photon is never farther from where it started than the time it
    has travelled: starting with a unit direction, after [m] iterations in
    which its scattering draws lie in [[0, 1]] and the sampled auxiliary
    directions are not parallel to its direction, its direction is still a
    unit vector and its distance from the starting position is at most the
    increase of [t]. *)
Theorem displacement_within_travel_time (n : nat) (draws : nat -> Draws Rnd)
    (i m : nat) :
  ice_contract _ice ->
  detector_contract _detector ->
  forall (k : nat) (s : LoopVars) (ph0 : Photon),
    shape_ok n s ->
    lane s i = Some ph0 ->
    norm (ph_v ph0) = 1 ->
    (forall (j : nat) (ph : Photon),
       (j < m)%nat ->
       lane (iterations draws k j s) i = Some ph ->
       0 <= scat_u (draws (k + j)%nat) i <= 1 /\
       cross (direction_row (normal_theta_u (draws (k + j)%nat) i)
                            (normal_phi_u (draws (k + j)%nat) i)) (ph_v ph)
         <> vzero) ->
    exists ph : Photon,
      lane (iterations draws k m s) i = Some ph /\
      norm (ph_v ph) = 1 /\
      norm (vsub (ph_r ph) (ph_r ph0)) <= ph_t ph - ph_t ph0.
Proof.
  intros Hice Hdet.
  induction m as [|m IH]; intros k s ph0 Hs Hl Hunit Hdraws; simpl.
  - exists ph0. split; [done|]. split; [done|].
    replace (vsub (ph_r ph0) (ph_r ph0)) with (vscale 0 (ph_r ph0))
      by (unfold vsub, vscale; simpl; f_equal; ring).
    rewrite norm_vscale by lra. lra.
  - pose proof (lane_lt n i s ph0 Hs Hl) as Hi.
    destruct (contract_lane _ice _detector n i (draws k) s Hice Hdet Hs Hi)
      as (ds & h & Hds & Hpos & Hh & Hrange).
    destruct (Hdraws 0%nat ph0 ltac:(lia) Hl) as (Hu & Hne).
    rewrite Nat.add_0_r in Hu, Hne.
    destruct (step_displacement (draws k) s i ds h ph0 Hl Hds Hh Hpos
                ltac:(lra) Hunit Hu Hne) as (ph1 & Hl1 & Hunit1 & Hstep).
    destruct (IH (S k) (body (draws k) s) ph1
                (body_shape settings _ice _detector n (draws k) s Hice Hdet Hs)
                Hl1 Hunit1) as (ph & Hlm & Hunitm & Hdist).
    { intros j ph' Hj Hl'.
      replace (S k + j)%nat with (k + S j)%nat by lia.
      apply (Hdraws (S j) ph'); [lia|done]. }
    exists ph. split; [done|]. split; [done|].
    rewrite (vsub_split (ph_r ph) (ph_r ph1) (ph_r ph0)).
    pose proof (norm_triangle (vsub (ph_r ph) (ph_r ph1))
                  (vsub (ph_r ph1) (ph_r ph0))) as Htri.
    lra.
Qed.

End Reach.

(** ** More concrete runs *)

Section MoreRuns.

Local Abbreviation ice := (constant_ice 10 5).
Local Abbreviation det := (constant_detector 1 100 100 100).
Local Abbreviation dr0 := (constant_draws 1 (1 / 2) 0).
Local Abbreviation idr := (constant_init_draws (1 / 2) 0).

Lemma norm_z_axis (x y z : R) :
  x = 0 -> y = 0 -> 0 <= z -> norm (mkV3 x y z) = z.
Proof.
  intros -> -> Hz. unfold norm, norm_sq; simpl.
  replace (0 * 0 + 0 * 0 + z * z) with (z * z) by ring.
  by apply sqrt_square.
Qed.

Lemma Rmin_10_5 : Rmin 10 (Rmax 5 0) = 5.
Proof.
  unfold Rmin, Rmax. destruct (Rle_dec 5 0); destruct (Rle_dec 10 _); lra.
Qed.

(** The run of one photon with scatter distance 10 and absorption distance
    5: one iteration. *)
Lemma one_photon_run :
  Model.tf_propagate settings_no_cutoff ice det idr (fun _ => dr0)
    [mkV3 0 0 0] [mkV3 0 0 1] 2
  = Some (1%nat, Model.body settings_no_cutoff ice det dr0 one_photon).
Proof.
  unfold Model.tf_propagate.
  change (Model.loop_init ice idr [mkV3 0 0 0] [mkV3 0 0 1]) with one_photon.
  simpl tf_while_loop.
  assert (Hc0 : Model.cond one_photon = true).
  { apply cond_true_iff. simpl. apply Exists_cons. left. lra. }
  rewrite Hc0.
  assert (Hd : d_abs (Model.body settings_no_cutoff ice det dr0 one_photon)
               !! 0%nat = Some 0).
  { rewrite (lookup_body_d_abs settings_no_cutoff ice det dr0 one_photon 0 5
               10 1 (mkV3 0 0 0) (mkV3 0 0 1) eq_refl eq_refl eq_refl eq_refl
               eq_refl).
    cbv zeta. unfold cutoff_row. simpl cutoff_enabled. rewrite Rmin_10_5.
    rewrite bool_decide_eq_false_2 by lra. f_equal.
    unfold Rmax. destruct (Rle_dec 5 0); lra. }
  rewrite cond_false_all_zero; [done|].
  intros i x Hi.
  assert (Hs : shape_ok 1 (Model.body settings_no_cutoff ice det dr0
                             one_photon)).
  { apply body_shape; [apply constant_ice_contract; lra
                      |apply constant_detector_contract; lra|].
    repeat split. }
  destruct Hs as (Hlen & _). apply lookup_lt_Some in Hi as Hlt.
  assert (i = 0%nat) as -> by lia. congruence.
Qed.

Lemma initial_directions_unit_witness :
  length (Model.sampled_directions (init_theta_u idr) (init_phi_u idr) 4)
  = 4%nat /\
  forall (i : nat) (dir : V3),
    Model.sampled_directions (init_theta_u idr) (init_phi_u idr) 4 !! i
    = Some dir -> norm dir = 1.
Proof.
  apply (initial_directions_unit settings_no_cutoff two_origins idr
           (tf_tile two_origins 2)).
  apply tf_init_cascades_Some. simpl. lia.
Defined.

Lemma init_cascades_shapes_witness :
  (Model.tf_init_cascades settings_no_cutoff two_origins idr = None <->
   2%nat = 0%nat) /\
  forall _r0 _v0 : list V3,
    Model.tf_init_cascades settings_no_cutoff two_origins idr
    = Some (_r0, _v0) ->
    length _r0 = (4 - 4 mod 2)%nat /\
    length _v0 = 4%nat /\
    (length _r0 = length _v0 <-> (2 | 4)%nat).
Proof.
  apply (init_cascades_shapes settings_no_cutoff two_origins idr).
  reflexivity.
Defined.

Lemma normal_vectors_unit_perpendicular_witness :
  length (Model.tf_sample_normal_vectors dr0 [mkV3 0 0 1]) = 1%nat /\
  exists n : V3,
    Model.tf_sample_normal_vectors dr0 [mkV3 0 0 1] !! 0%nat = Some n /\
    norm n = 1 /\ vdot n (mkV3 0 0 1) = 0.
Proof.
  apply (normal_vectors_unit_perpendicular dr0 [mkV3 0 0 1] 0 (mkV3 0 0 1)).
  - reflexivity.
  - apply x_axis_cross_z_axis.
Defined.

Lemma scatter_angle_witness :
  length (Model.tf_scatter dr0 [mkV3 0 0 1]) = 1%nat /\
  exists out : V3,
    Model.tf_scatter dr0 [mkV3 0 0 1] !! 0%nat = Some out /\
    vdot out (mkV3 0 0 1) = 2 * tf_pow 1 (1 / 19) - 1 /\
    -1 <= vdot out (mkV3 0 0 1) <= 1.
Proof.
  apply (scatter_angle dr0 [mkV3 0 0 1] 0 (mkV3 0 0 1)).
  - reflexivity.
  - apply z_axis_unit.
  - simpl. lra.
  - apply x_axis_cross_z_axis.
Defined.

Lemma body_keeps_batch_witness :
  shape_ok 1 (Model.body settings_no_cutoff ice det dr0 one_photon) /\
  forall i : nat,
    is_Some (lane one_photon i) <->
    is_Some (lane (Model.body settings_no_cutoff ice det dr0 one_photon) i).
Proof.
  apply (body_keeps_batch settings_no_cutoff ice det 1 dr0 one_photon).
  - apply constant_ice_contract. lra.
  - apply constant_detector_contract. lra.
  - repeat split.
Defined.

Lemma hit_photon_stops_witness :
  d_abs (Model.body settings_no_cutoff ice
           (constant_detector (1 / 2) 100 100 100) dr0 one_photon) !! 0%nat
  = Some 0.
Proof.
  destruct (hit_photon_stops settings_no_cutoff ice
              (constant_detector (1 / 2) 100 100 100) dr0 one_photon 0
              5 10 (1 / 2) (mkV3 0 0 0) (mkV3 0 0 1)
              eq_refl eq_refl eq_refl eq_refl eq_refl ltac:(lra))
    as (Hd & _).
  exact Hd.
Defined.

Lemma absorbed_photon_stops_witness :
  d_abs (Model.body settings_no_cutoff ice det dr0 one_photon) !! 0%nat
  = Some 0.
Proof.
  destruct (absorbed_photon_stops settings_no_cutoff ice det dr0 one_photon 0
              5 10 1 0 (mkV3 0 0 0) (mkV3 0 0 1)
              eq_refl eq_refl eq_refl eq_refl eq_refl eq_refl
              (Rmax_lub 5 0 10 ltac:(lra) ltac:(lra)))
    as (Hd & _).
  exact Hd.
Defined.

Lemma direction_stays_unit_witness :
  exists dir' : V3,
    v (Model.body settings_no_cutoff ice det dr0 one_photon) !! 0%nat
    = Some dir' /\ norm dir' = 1.
Proof.
  apply (direction_stays_unit settings_no_cutoff ice det dr0 one_photon 0
           5 10 1 (mkV3 0 0 0) (mkV3 0 0 1));
    try reflexivity.
  - apply z_axis_unit.
  - simpl. lra.
  - apply x_axis_cross_z_axis.
Defined.

Lemma step_length_is_time_witness :
  exists (p' : V3) (tm' : R),
    r (Model.body settings_no_cutoff ice det dr0 one_photon) !! 0%nat
    = Some p' /\
    t (Model.body settings_no_cutoff ice det dr0 one_photon) !! 0%nat
    = Some tm' /\
    norm (vsub p' (mkV3 0 0 0)) = tm' - 0.
Proof.
  apply (step_length_is_time settings_no_cutoff ice det dr0 one_photon 0
           5 10 1 0 (mkV3 0 0 0) (mkV3 0 0 1));
    try reflexivity.
  - apply z_axis_unit.
  - lra.
  - lra.
Defined.

(** The photon of the one-photon batch and the second photon of a
    two-photon batch, under different draws on the other lane. *)
Lemma lanes_independent_witness :
  is_Some (lane (Model.body settings_no_cutoff ice det dr0 one_photon) 0) /\
  lane (Model.body settings_no_cutoff ice det dr0 one_photon) 0
  = lane (Model.body settings_no_cutoff ice det lanewise_draws two_photons) 1.
Proof.
  apply (lanes_independent settings_no_cutoff ice det dr0 lanewise_draws
           one_photon two_photons 0 1
           (mkPhoton 5 (mkV3 0 0 0) (mkV3 0 0 1) 0 0 0) 10 1);
    reflexivity.
Defined.

Lemma propagate_exit_witness :
  Model.body settings_no_cutoff ice det dr0 one_photon
  = Model.iterations settings_no_cutoff ice det (fun _ => dr0) 0 1
      (Model.loop_init ice idr [mkV3 0 0 0] [mkV3 0 0 1]) /\
  Forall (fun x => x <= 0)
    (d_abs (Model.body settings_no_cutoff ice det dr0 one_photon)) /\
  forall j : nat,
    (j < 1)%nat ->
    Exists (fun x => 0 < x)
      (d_abs (Model.iterations settings_no_cutoff ice det (fun _ => dr0) 0 j
                (Model.loop_init ice idr [mkV3 0 0 0] [mkV3 0 0 1]))).
Proof.
  apply (propagate_exit settings_no_cutoff ice det idr (fun _ => dr0)
           [mkV3 0 0 0] [mkV3 0 0 1] 2 1).
  apply one_photon_run.
Defined.

Lemma travel_within_budget_witness :
  exists ph : Photon,
    lane (Model.iterations settings_no_cutoff ice det (fun _ => dr0) 0 3
            one_photon) 0 = Some ph /\
    0 <= ph_d_abs ph /\
    0 <= ph_t ph /\
    (ph_t ph - 0) + ph_d_abs ph <= 5.
Proof.
  apply (travel_within_budget settings_no_cutoff ice det 1 (fun _ => dr0)
           one_photon 0 (mkPhoton 5 (mkV3 0 0 0) (mkV3 0 0 1) 0 0 0)).
  - apply constant_ice_contract. lra.
  - apply constant_detector_contract. lra.
  - repeat split.
  - reflexivity.
  - simpl. lra.
Defined.

Lemma arrival_time_without_hits_witness :
  t (Model.body settings_no_cutoff ice det dr0 one_photon) !! 0%nat = Some 5 /\
  d_abs (Model.body settings_no_cutoff ice det dr0 one_photon) !! 0%nat
  = Some 0.
Proof.
  apply (arrival_time_without_hits settings_no_cutoff ice det idr
           (fun _ => dr0) [mkV3 0 0 0] [mkV3 0 0 1] 2 1).
  - apply constant_ice_contract. lra.
  - apply constant_ice_absorption_shape.
  - intros rs ds vs. reflexivity.
  - reflexivity.
  - reflexivity.
  - reflexivity.
  - lra.
  - apply one_photon_run.
Defined.


Lemma active_inside_cutoff_witness :
  norm (vsub (vadd (mkV3 0 0 100)
                   (vscale (Rmin 10 (Rmax 20 0) * 1) (mkV3 0 0 1)))
             (mkV3 (0 / 2) (0 / 2) (200 / 2)))
  < 1 * norm (mkV3 0 0 200) / 2.
Proof.
  assert (Hm : Rmin 10 (Rmax 20 0) = 10).
  { unfold Rmin, Rmax. destruct (Rle_dec 20 0); destruct (Rle_dec 10 _); lra. }
  assert (Hx : Rmax 20 0 = 20).
  { unfold Rmax. destruct (Rle_dec 20 0); lra. }
  assert (Hin : Model.inside_cutoff (constant_detector 1 0 0 200) 1
                  (vadd (mkV3 0 0 100)
                        (vscale (Rmin 10 (Rmax 20 0) * 1) (mkV3 0 0 1)))
                = true).
  { unfold Model.inside_cutoff. apply bool_decide_eq_true_2. simpl.
    rewrite Hm. unfold vsub, vadd, vscale. cbn [vx vy vz].
    rewrite !norm_z_axis by lra. lra. }
  pose proof (lookup_body_d_abs settings_cutoff ice
                (constant_detector 1 0 0 200) dr0 centre_photon 0 20 10 1
                (mkV3 0 0 100) (mkV3 0 0 1)
                eq_refl eq_refl eq_refl eq_refl eq_refl) as Hd.
  cbv zeta in Hd. unfold cutoff_row in Hd.
  rewrite cutoff_enabled_1, Hin in Hd.
  rewrite (bool_decide_eq_false_2 (1 < 1)) in Hd by lra.
  apply (active_inside_cutoff settings_cutoff ice
           (constant_detector 1 0 0 200) dr0 centre_photon 0 1 20 10 1
           (Rmax 20 0 - Rmin 10 (Rmax 20 0)) (mkV3 0 0 100) (mkV3 0 0 1)
           _ cutoff_enabled_1 eq_refl eq_refl eq_refl eq_refl eq_refl Hd).
  - by eapply lookup_body_r.
  - lra.
Defined.

(** One photon whose sampled absorption distance is 0: the loop returns the
    initial loop variables at once. *)
Lemma propagate_idle_witness :
  Model.tf_propagate settings_no_cutoff (constant_ice 10 0) det idr
    (fun _ => dr0) [mkV3 0 0 0] [mkV3 0 0 1] 1
  = Some (0%nat,
          Model.loop_init (constant_ice 10 0) idr [mkV3 0 0 0] [mkV3 0 0 1]).
Proof.
  destruct (propagate_idle settings_no_cutoff (constant_ice 10 0) det idr
              (fun _ => dr0) [mkV3 0 0 0] [mkV3 0 0 1] 1
              ltac:(lia) (constant_ice_absorption_shape 10 0) eq_refl)
    as (_ & Hiff & _).
  apply Hiff. simpl. apply Forall_cons. split; [lra|apply Forall_nil_2].
Defined.

Lemma displacement_within_travel_time_witness :
  exists ph : Photon,
    lane (Model.iterations settings_no_cutoff ice det (fun _ => dr0) 0 1
            one_photon) 0 = Some ph /\
    norm (ph_v ph) = 1 /\
    norm (vsub (ph_r ph) (mkV3 0 0 0)) <= ph_t ph - 0.
Proof.
  apply (displacement_within_travel_time settings_no_cutoff ice det 1
           (fun _ => dr0) 0 1
           (constant_ice_contract 10 5 ltac:(lra))
           (constant_detector_contract 1 100 100 100 ltac:(lra))
           0%nat one_photon (mkPhoton 5 (mkV3 0 0 0) (mkV3 0 0 1) 0 0 0)).
  - repeat split.
  - reflexivity.
  - apply z_axis_unit.
  - intros j ph Hj Hl. assert (j = 0%nat) as -> by lia.
    simpl in Hl. injection Hl as <-. simpl. split; [lra|].
    apply x_axis_cross_z_axis.
Defined.

End MoreRuns.
